(** * nilayshop: the product extractor of [app.py]

    A shallow embedding of [t], [parse_product] and the [/extract] handler,
    with the properties of the extraction pipeline proved over it.

    Python values are modelled as the program sees them: a [str] is a
    sequence of Unicode code points, the result of [json.loads] is a tree of
    values, a raised exception is an explicit [Raise] result, and the calls
    made to the translation provider are recorded in a log. *)

From Stdlib Require Import List NArith ZArith Bool Lia String Ascii DecimalString.
Import ListNotations.

Set Warnings "-register-all".

Local Open Scope N_scope.
Local Open Scope list_scope.

(** ** Python strings *)

(** A code point, and a Python [str]. *)
Definition char := N.
Definition str := list char.

Module Utf8.

(** The literals of [app.py] are written below as UTF-8 text and decoded
    to code points, so that ["ağırlık"] has seven characters as in Python. *)
Definition cont (b : N) : N := N.land b 63.

Fixpoint decode (fuel : nat) (bs : list N) : str :=
  match fuel with
  | O => []
  | S fuel' =>
    match bs with
    | [] => []
    | b0 :: r0 =>
      if b0 <? 128 then b0 :: decode fuel' r0
      else if b0 <? 224 then
        match r0 with
        | b1 :: r1 => (N.land b0 31 * 64 + cont b1) :: decode fuel' r1
        | _ => []
        end
      else if b0 <? 240 then
        match r0 with
        | b1 :: b2 :: r2 =>
          (N.land b0 15 * 4096 + cont b1 * 64 + cont b2) :: decode fuel' r2
        | _ => []
        end
      else
        match r0 with
        | b1 :: b2 :: b3 :: r3 =>
          (N.land b0 7 * 262144 + cont b1 * 4096 + cont b2 * 64 + cont b3)
            :: decode fuel' r3
        | _ => []
        end
    end
  end.

Definition bytes (s : string) : list N :=
  map (fun a => N_of_ascii a) (list_ascii_of_string s).

Definition of_string (s : string) : str :=
  let bs := bytes s in decode (List.length bs) bs.

End Utf8.

(** [u "..."] is the Python string literal with that text. *)
Definition u (s : string) : str := Utf8.of_string s.

Fixpoint str_eqb (a b : str) : bool :=
  match a, b with
  | [], [] => true
  | x :: a', y :: b' => (x =? y) && str_eqb a' b'
  | _, _ => false
  end.

(** [sub in s] for two strings. *)
Fixpoint starts_with (sub s : str) : bool :=
  match sub, s with
  | [], _ => true
  | x :: sub', y :: s' => (x =? y) && starts_with sub' s'
  | _ :: _, [] => false
  end.

Fixpoint str_in (sub s : str) : bool :=
  starts_with sub s ||
  match s with
  | [] => false
  | _ :: s' => str_in sub s'
  end.

(** [sep.join(l)] for a list of strings. *)
Fixpoint join (sep : str) (l : list str) : str :=
  match l with
  | [] => []
  | [x] => x
  | x :: l' => x ++ sep ++ join sep l'
  end.

(** [str(n)] for an [int]. *)
Definition str_of_Z (z : Z) : str :=
  u (NilZero.string_of_int (Z.to_int z)).

(** *** Whitespace

    [str.isspace], [str.strip] and the regular expression class [\s] of a
    [str] pattern all use the same table of Unicode white space. *)
Definition isspace (c : char) : bool :=
  ((9 <=? c) && (c <=? 13)) || ((28 <=? c) && (c <=? 32))
  || (c =? 133) || (c =? 160) || (c =? 5760)
  || ((8192 <=? c) && (c <=? 8202))
  || (c =? 8232) || (c =? 8233) || (c =? 8239) || (c =? 8287) || (c =? 12288).

Definition SP : char := 32.

Fixpoint lstrip (s : str) : str :=
  match s with
  | [] => []
  | c :: s' => if isspace c then lstrip s' else s
  end.

Definition rstrip (s : str) : str := rev (lstrip (rev s)).

(** [s.strip()] *)
Definition strip (s : str) : str := rstrip (lstrip s).

(** [re.sub(r"\s+", " ", v)]: every maximal run of white space becomes one
    space.  [in_run] tells that the previous character was white space, so
    the run it belongs to has already been replaced. *)
Fixpoint sub_ws (in_run : bool) (v : str) : str :=
  match v with
  | [] => []
  | c :: v' =>
    if isspace c
    then if in_run then sub_ws true v' else SP :: sub_ws true v'
    else c :: sub_ws false v'
  end.

(** [re.sub(r"\s+", " ", v).strip()], line 140. *)
Definition squeeze (v : str) : str := strip (sub_ws false v).

(** *** Lower case

    [lower_simple] is the one-to-one lower-case mapping that [re] applies
    to a subject character under [re.I]; [str_lower] is [str.lower()].  Both
    are given on the characters that can lower to a letter of the words the
    program looks for (the ASCII letters, G with breve, I with dot above and
    the Kelvin sign); no other character can take part in a comparison with
    those words, and it is left as it is. *)
Definition lower_simple (c : char) : char :=
  if (65 <=? c) && (c <=? 90) then c + 32
  else if c =? 286 then 287
  else if c =? 304 then 105
  else if c =? 8490 then 107
  else c.

Definition lower_full (c : char) : str :=
  if c =? 304 then [105; 775] else [lower_simple c].

Definition str_lower (s : str) : str := flat_map lower_full s.

(** ** Python values and exceptions *)

(** What [json.loads] returns, and what the fields of the product record
    hold.  A [float] is kept as the two things the program observes of it:
    its text and whether it is non-zero.  A [dict] is an association list
    read through [dict_get]. *)
Inductive value : Type :=
| PNone
| PBool (b : bool)
| PInt (z : Z)
| PFloat (text : str) (nonzero : bool)
| PStr (s : str)
| PList (l : list value)
| PDict (kvs : list (str * value)).

(** [bool(v)] *)
Definition truthy (v : value) : bool :=
  match v with
  | PNone => false
  | PBool b => b
  | PInt z => negb (z =? 0)%Z
  | PFloat _ nonzero => nonzero
  | PStr s => match s with [] => false | _ :: _ => true end
  | PList l => match l with [] => false | _ :: _ => true end
  | PDict kvs => match kvs with [] => false | _ :: _ => true end
  end.

(** [a or b] *)
Definition py_or (a b : value) : value := if truthy a then a else b.

(** [d.get(k)]: [None] when the key is missing. *)
Fixpoint dict_get (kvs : list (str * value)) (k : str) : value :=
  match kvs with
  | [] => PNone
  | (k', v) :: rest => if str_eqb k' k then v else dict_get rest k
  end.

(** [v in [s1, s2, ...]] for a list of string literals: only a [str] is
    equal to a [str]. *)
Definition in_strs (v : value) (l : list str) : bool :=
  match v with
  | PStr s => existsb (str_eqb s) l
  | _ => false
  end.

Definition is_str (v : value) : bool :=
  match v with PStr _ => true | _ => false end.

(** [type(v).__name__] *)
Definition type_name (v : value) : str :=
  match v with
  | PNone => u "NoneType"
  | PBool _ => u "bool"
  | PInt _ => u "int"
  | PFloat _ _ => u "float"
  | PStr _ => u "str"
  | PList _ => u "list"
  | PDict _ => u "dict"
  end.

Inductive exn : Type :=
| HTTPStatusError (status_code : Z) (msg : str)
| AttributeError (msg : str)
| TypeError (msg : str)
| Error (msg : str).

(** [str(e)] *)
Definition exn_str (e : exn) : str :=
  match e with
  | HTTPStatusError _ msg => msg
  | AttributeError msg => msg
  | TypeError msg => msg
  | Error msg => msg
  end.

(** The outcome of a call that may raise. *)
Inductive result (A : Type) : Type :=
| Ok (a : A)
| Raise (e : exn).
Arguments Ok {A} a.
Arguments Raise {A} e.

Definition bind {A B : Type} (c : result A) (k : A -> result B) : result B :=
  match c with
  | Ok a => k a
  | Raise e => Raise e
  end.

Declare Scope result_scope.
Delimit Scope result_scope with result.
Notation "x <- c ;; k" := (bind c (fun x => k))
  (at level 61, c at next level, right associativity) : result_scope.

(** [v.attr] on a value that has no such attribute. *)
Definition no_attribute {A : Type} (v : value) (attr : string) : result A :=
  Raise (AttributeError
           (u "'" ++ type_name v ++ u "' object has no attribute '" ++ u attr ++ u "'")).

(** ** Regular expressions

    The fragment of [re] that the two weight patterns use, matched by
    backtracking as [re] does: alternatives left to right, [?] and [+]
    greedy.  Under [re.I] a literal letter is compared after lower-casing
    the subject character; classes without letters are compared as they
    are. *)
Module Re.

Inductive regex : Type :=
| Eps
| Lit (c : char)
| Class (p : char -> bool)
| Cat (r1 r2 : regex)
| Alt (r1 r2 : regex)
| Opt (r : regex)
| Plus (p : char -> bool)
| Group (r : regex).

(** The other members of the case-insensitive class of a lower-case
    letter: [i] and dotless [i] match each other. *)
Definition fixes (lo : char) : list char :=
  if lo =? 105 then [305] else if lo =? 305 then [105] else [].

Definition lit_match (c ch : char) : bool :=
  let lo := lower_simple c in
  existsb (N.eqb (lower_simple ch)) (lo :: fixes lo).

(** Where group 1 starts and ends, counted from the start of the match. *)
Definition span : Type := (nat * nat)%type.

Section Matcher.
Context {A : Type}.

(** Zero or more characters of class [p], as many as possible first. *)
Fixpoint star (p : char -> bool) (pos : nat) (s : str)
         (k : nat -> str -> option A) : option A :=
  match s with
  | c :: s' =>
    if p c
    then match star p (S pos) s' k with
         | Some a => Some a
         | None => k pos s
         end
    else k pos s
  | [] => k pos s
  end.

(** [run r pos s g k]: match [r] at position [pos], where the text [s]
    is left, with [g] the span of group 1 so far, and continue with [k]
    after it; [None] makes the matcher try its next choice. *)
Fixpoint run (r : regex) (pos : nat) (s : str) (g : option span)
         (k : nat -> str -> option span -> option A) : option A :=
  match r with
  | Eps => k pos s g
  | Lit c =>
    match s with
    | ch :: s' => if lit_match c ch then k (S pos) s' g else None
    | [] => None
    end
  | Class p =>
    match s with
    | ch :: s' => if p ch then k (S pos) s' g else None
    | [] => None
    end
  | Cat r1 r2 => run r1 pos s g (fun pos' s' g' => run r2 pos' s' g' k)
  | Alt r1 r2 =>
    match run r1 pos s g k with
    | Some a => Some a
    | None => run r2 pos s g k
    end
  | Opt r1 =>
    match run r1 pos s g k with
    | Some a => Some a
    | None => k pos s g
    end
  | Plus p =>
    match s with
    | ch :: s' =>
      if p ch then star p (S pos) s' (fun pos' s'' => k pos' s'' g) else None
    | [] => None
    end
  | Group r1 =>
    run r1 pos s g (fun pos' s' _ => k pos' s' (Some (pos, pos')))
  end.

End Matcher.

(** [s[a:b]] *)
Definition slice (s : str) (g : span) : str :=
  firstn (snd g - fst g) (skipn (fst g) s).

(** A match that starts at the head of [s]: its [group(1)]. *)
Definition match_here (r : regex) (s : str) : option (option str) :=
  run r 0 s None (fun _ _ g => Some (option_map (slice s) g)).

(** [re.search(r, s)]: the first position, from the left, with a match. *)
Fixpoint search (r : regex) (s : str) : option (option str) :=
  match match_here r s with
  | Some g => Some g
  | None =>
    match s with
    | [] => None
    | _ :: s' => search r s'
    end
  end.

(** A word, letter by letter. *)
Definition word (w : str) : regex :=
  fold_right (fun c r => Cat (Lit c) r) Eps w.

End Re.

(** [[0-9.,]] *)
Definition digit_class (c : char) : bool :=
  ((48 <=? c) && (c <=? 57)) || (c =? 46) || (c =? 44).

(** [[: ]] *)
Definition colon_space (c : char) : bool := (c =? 58) || (c =? 32).

(** [(?:kg|g|gr)] *)
Definition unit_re : Re.regex :=
  Re.Alt (Re.word (u "kg")) (Re.Alt (Re.word (u "g")) (Re.word (u "gr"))).

(** [([0-9.,]+\s?(?:kg|g|gr))] *)
Definition amount_re : Re.regex :=
  Re.Group (Re.Cat (Re.Plus digit_class) (Re.Cat (Re.Opt (Re.Class isspace)) unit_re)).

(** [Ağırlık[: ]+([0-9.,]+\s?(?:kg|g|gr))], line 131 *)
Definition weight_re1 : Re.regex :=
  Re.Cat (Re.word (u "Ağırlık")) (Re.Cat (Re.Plus colon_space) amount_re).

(** [([0-9.,]+\s?(?:kg|g|gr))\s+ağırlık], line 133 *)
Definition weight_re2 : Re.regex :=
  Re.Cat amount_re (Re.Cat (Re.Plus isspace) (Re.word (u "ağırlık"))).

(** ** The parsed page *)

(** A [<script type="application/ld+json">] tag, seen through
    [json.loads(tag.string.strip())] (line 51): the call raised (no string
    in the tag, or text that is not JSON), or it returned [js]. *)
Inductive script : Type :=
| Unparsable
| Parsed (js : value).

(** The answers of BeautifulSoup to the queries that [parse_product] makes. *)
Record Soup : Type := {
  (** [soup.find_all("script", type="application/ld+json")] *)
  ld_json : list script;
  (** [soup.find("meta", property="og:image")], with its [content] attribute *)
  og_image : option (option str);
  (** [soup.find("h1")], as [get_text(strip=True)] *)
  h1 : option str;
  (** [soup.select_one("a.product-brand")], as [get_text(strip=True)] *)
  product_brand : option str;
  (** the first element of a price class, as [get_text(strip=True)] *)
  product_price : option str;
  (** the first description box, as [get_text("\n", strip=True)] *)
  product_desc : option str;
  (** the breadcrumb links, each as [get_text(strip=True)] *)
  breadcrumb : list str;
  (** [soup.get_text("\n", strip=True)] *)
  page_text : str
}.

(** ** The product record *)

Inductive key : Type :=
| Image | Name | Price | Description | Brand | Category | Weight.

(** The dict [data] of [parse_product], with its seven fixed keys. *)
Record data : Type := {
  image : value;
  name : value;
  price : value;
  description : value;
  brand : value;
  category : value;
  weight : value
}.

(** [d[k]] *)
Definition get (d : data) (k : key) : value :=
  match k with
  | Image => image d
  | Name => name d
  | Price => price d
  | Description => description d
  | Brand => brand d
  | Category => category d
  | Weight => weight d
  end.

(** [d[k] = v] *)
Definition set (k : key) (v : value) (d : data) : data :=
  match k with
  | Image => {| image := v; name := name d; price := price d;
                description := description d; brand := brand d;
                category := category d; weight := weight d |}
  | Name => {| image := image d; name := v; price := price d;
               description := description d; brand := brand d;
               category := category d; weight := weight d |}
  | Price => {| image := image d; name := name d; price := v;
                description := description d; brand := brand d;
                category := category d; weight := weight d |}
  | Description => {| image := image d; name := name d; price := price d;
                      description := v; brand := brand d;
                      category := category d; weight := weight d |}
  | Brand => {| image := image d; name := name d; price := price d;
                description := description d; brand := v;
                category := category d; weight := weight d |}
  | Category => {| image := image d; name := name d; price := price d;
                   description := description d; brand := brand d;
                   category := v; weight := weight d |}
  | Weight => {| image := image d; name := name d; price := price d;
                 description := description d; brand := brand d;
                 category := category d; weight := v |}
  end.

Declare Scope data_scope.
Delimit Scope data_scope with data.
Notation "d .[ k ]" := (get d k)
  (at level 1, left associativity, format "d .[ k ]") : data_scope.
Notation "d .[ k := v ]" := (set k v d)
  (at level 1, left associativity, format "d .[ k  :=  v ]") : data_scope.
Local Open Scope data_scope.
Local Open Scope result_scope.

(** Lines 38 to 46. *)
Definition empty_data : data :=
  {| image := PStr []; name := PStr []; price := PStr [];
     description := PStr []; brand := PStr []; category := PStr [];
     weight := PStr [] |}.

(** Lines 138 to 140: a field that holds a string is squeezed, any other
    value is left as it is. *)
Definition squeeze_value (v : value) : value :=
  match v with
  | PStr s => PStr (squeeze s)
  | _ => v
  end.

Definition squeeze_data (d : data) : data :=
  {| image := squeeze_value (image d); name := squeeze_value (name d);
     price := squeeze_value (price d);
     description := squeeze_value (description d);
     brand := squeeze_value (brand d); category := squeeze_value (category d);
     weight := squeeze_value (weight d) |}.

(** ** [parse_product] *)

Section Extractor.

(** [repr] of a [str], which Python uses when an f-string renders a list
    or a dict that holds strings.  Its quoting and escaping depend on the
    Unicode tables; the extractor is a function of it. *)
Variable str_repr : str -> str.

Fixpoint py_repr (v : value) : str :=
  match v with
  | PNone => u "None"
  | PBool b => if b then u "True" else u "False"
  | PInt z => str_of_Z z
  | PFloat text _ => text
  | PStr s => str_repr s
  | PList l => u "[" ++ join (u ", ") (map py_repr l) ++ u "]"
  | PDict kvs =>
    u "{" ++ join (u ", ")
                 (map (fun kv => match kv with
                                 | (k, x) => str_repr k ++ u ": " ++ py_repr x
                                 end) kvs)
      ++ u "}"
  end.

(** [f"{v}"] *)
Definition py_format (v : value) : str :=
  match v with
  | PStr s => s
  | _ => py_repr v
  end.

(** [" / ".join(cats)], line 80: every item has to be a [str]; [i] is the
    index of the first item of [cats]. *)
Fixpoint str_items (i : Z) (cats : list value) : result (list str) :=
  match cats with
  | [] => Ok []
  | PStr s :: rest => items <- str_items (i + 1) rest ;; Ok (s :: items)
  | c :: _ =>
    Raise (TypeError (u "sequence item " ++ str_of_Z i
                        ++ u ": expected str instance, " ++ type_name c
                        ++ u " found"))
  end.

(** Lines 86 to 89, the loop over [addp]. *)
Fixpoint scan_properties (addp : list value) (d : data) : result data :=
  match addp with
  | [] => Ok d
  | p :: rest =>
    match p with
    | PDict pd =>
      match py_or (dict_get pd (u "name")) (PStr []) with
      | PStr s =>
        let name := str_lower s in
        if str_in (u "ağırlık") name || str_in (u "weight") name
        then scan_properties rest
               d.[Weight := py_or (dict_get pd (u "value"))
                                  (py_or (dict_get pd (u "unitCode")) (PStr []))]
        else scan_properties rest d
      | other => no_attribute other "lower"
      end
    | _ => no_attribute p "get"
    end
  end.

(** Line 59. *)
Definition extract_name (obj : list (str * value)) (d : data) : data :=
  d.[Name := py_or (dict_get obj (u "name")) d.[Name]].

(** Lines 60 to 64. *)
Definition extract_image (obj : list (str * value)) (d : data) : data :=
  let images := dict_get obj (u "image") in
  match images with
  | PList (first :: _) => d.[Image := first]
  | PStr _ => d.[Image := images]
  | _ => d
  end.

(** Lines 65 to 69. *)
Definition extract_brand (obj : list (str * value)) (d : data) : data :=
  let brand := dict_get obj (u "brand") in
  match brand with
  | PDict b => d.[Brand := py_or (dict_get b (u "name")) d.[Brand]]
  | PStr _ => d.[Brand := brand]
  | _ => d
  end.

(** Lines 70 to 72: [offers], or its first element when it is a list. *)
Definition first_offer (obj : list (str * value)) : value :=
  let offers := py_or (dict_get obj (u "offers")) (PDict []) in
  match offers with
  | PList (first :: _) => first
  | _ => offers
  end.

(** Lines 73 to 76. *)
Definition extract_price (obj : list (str * value)) (d : data) : data :=
  match first_offer obj with
  | PDict offers =>
    let price := py_or (dict_get offers (u "price"))
                       (py_or (dict_get offers (u "highPrice"))
                              (dict_get offers (u "lowPrice"))) in
    let currency := py_or (dict_get offers (u "priceCurrency")) (PStr []) in
    d.[Price := if truthy price
                then PStr (strip (py_format price ++ u " " ++ py_format currency))
                else d.[Price]]
  | _ => d
  end.

(** Line 77. *)
Definition extract_description (obj : list (str * value)) (d : data) : data :=
  d.[Description := py_or (dict_get obj (u "description")) d.[Description]].

(** Lines 78 to 82. *)
Definition extract_category (obj : list (str * value)) (d : data) : result data :=
  let cats := py_or (dict_get obj (u "category")) (dict_get obj (u "categoryName")) in
  match cats with
  | PList l => items <- str_items 0 l ;;
               Ok d.[Category := PStr (join (u " / ") items)]
  | PStr _ => Ok d.[Category := cats]
  | _ => Ok d
  end.

(** Lines 84 to 89. *)
Definition extract_weight (obj : list (str * value)) (d : data) : result data :=
  let addp := py_or (dict_get obj (u "additionalProperty"))
                    (dict_get obj (u "additionalProperties")) in
  match addp with
  | PList l => scan_properties l d
  | _ => Ok d
  end.

(** Lines 59 to 89, the body of the [if] for a Product object [obj]. *)
Definition extract_object (obj : list (str * value)) (d : data) : result data :=
  let d := extract_name obj d in
  let d := extract_image obj d in
  let d := extract_brand obj d in
  let d := extract_price obj d in
  let d := extract_description obj d in
  d <- extract_category obj d ;;
  extract_weight obj d.

(** Lines 57 to 90, the loop over [candidates]: the first object that is a
    dict with [@type] equal to ["Product"] or ["product"] is extracted
    and ends the loop ([break]). *)
Fixpoint scan_candidates (candidates : list value) (d : data) : result data :=
  match candidates with
  | [] => Ok d
  | obj :: rest =>
    match obj with
    | PDict kvs =>
      if in_strs (dict_get kvs (u "@type")) [u "Product"; u "product"]
      then extract_object kvs d
      else scan_candidates rest d
    | _ => scan_candidates rest d
    end
  end.

(** Line 56. *)
Definition candidates_of (js : value) : list value :=
  match js with
  | PList l => l
  | _ => [js]
  end.

(** Lines 49 to 90, the loop over the script tags. *)
Fixpoint scan_scripts (tags : list script) (d : data) : result data :=
  match tags with
  | [] => Ok d
  | Unparsable :: rest => scan_scripts rest d
  | Parsed js :: rest =>
    d' <- scan_candidates (candidates_of js) d ;;
    scan_scripts rest d'
  end.

(** Phase 1: lines 38 to 90. *)
Definition structured (soup : Soup) : result data :=
  scan_scripts (ld_json soup) empty_data.

(** Lines 129 to 135, the weight looked for in the text of the page. *)
Definition weight_in_text (text : str) : option value :=
  let m := match Re.search weight_re1 text with
           | Some m1 => Some m1
           | None => Re.search weight_re2 text
           end in
  match m with
  | Some (Some g) => Some (PStr g)
  | Some None => Some PNone
  | None => None
  end.

(** The value that lines 93 to 135 would put in a field that is empty. *)
Definition fallback (soup : Soup) (k : key) : option value :=
  match k with
  | Image =>
    match og_image soup with
    | Some (Some content) =>
      if truthy (PStr content) then Some (PStr content) else None
    | _ => None
    end
  | Name => option_map PStr (h1 soup)
  | Brand => option_map PStr (product_brand soup)
  | Price => option_map PStr (product_price soup)
  | Description => option_map PStr (product_desc soup)
  | Category =>
    match breadcrumb soup with
    | [] => None
    | crumbs => Some (PStr (join (u " / ") crumbs))
    end
  | Weight => weight_in_text (page_text soup)
  end.

(** One [if not data[k]:] block of lines 93 to 135. *)
Definition fill (soup : Soup) (k : key) (d : data) : data :=
  if truthy d.[k] then d
  else match fallback soup k with
       | Some v => d.[k := v]
       | None => d
       end.

(** Phase 2: lines 93 to 135, in the order of the source. *)
Definition fallbacks (soup : Soup) (d : data) : data :=
  fill soup Weight
    (fill soup Category
      (fill soup Description
        (fill soup Price
          (fill soup Brand
            (fill soup Name
              (fill soup Image d)))))).

(** [parse_product], on the parsed page. *)
Definition parse_product (soup : Soup) : result data :=
  d <- structured soup ;;
  Ok (squeeze_data (fallbacks soup d)).

End Extractor.

(** ** The translator adapter and the [/extract] handler *)

(** The response of [client.get(url)], as [fetch] uses it. *)
Record Response : Type := {
  raise_for_status : result unit;
  text : str
}.

(** The collaborators of the handler: the HTTP client, the HTML parser and
    the translation provider. *)
Record World : Type := {
  (** [client.get(url)], line 32 *)
  client_get : str -> result Response;
  (** [BeautifulSoup(html, "lxml")], line 37 *)
  BeautifulSoup : str -> Soup;
  (** [translator.translate(text)], line 21 *)
  translate : value -> result value
}.

(** A computation that may raise and that records, in order, the texts it
    hands to the translation provider. *)
Definition M (A : Type) : Type := list value -> result A * list value.

Definition ret {A : Type} (a : A) : M A := fun calls => (Ok a, calls).

Definition lift {A : Type} (c : result A) : M A := fun calls => (c, calls).

Definition bindM {A B : Type} (c : M A) (k : A -> M B) : M B :=
  fun calls =>
    match c calls with
    | (Ok a, calls') => k a calls'
    | (Raise e, calls') => (Raise e, calls')
    end.

(** [try: c except Exception as e: h e] *)
Definition try_except {A : Type} (c : M A) (h : exn -> M A) : M A :=
  fun calls =>
    match c calls with
    | (Ok a, calls') => (Ok a, calls')
    | (Raise e, calls') => h e calls'
    end.

Declare Scope M_scope.
Delimit Scope M_scope with M.
Notation "x <~ c ;; k" := (bindM c (fun x => k))
  (at level 61, c at next level, right associativity) : M_scope.

(** What the handler gives to the template: [result] and [error]. *)
Record Context : Type := {
  result_ : option data;
  error : option str
}.

Section Handler.

Variable str_repr : str -> str.
Variable w : World.

Definition call_translate (text : value) : M value :=
  fun calls => (translate w text, calls ++ [text]).

(** [t], lines 17 to 24. *)
Definition t (text : value) : M value :=
  if negb (truthy text) then ret (PStr [])
  else try_except (call_translate text) (fun _ => ret text).

(** [fetch], lines 26 to 34. *)
Definition fetch (url : str) : result str :=
  (resp <- client_get w url ;;
   _ <- raise_for_status resp ;;
   Ok (text resp))%result.

(** The body of the [try] of [extract], lines 153 to 165. *)
Definition extract_body (url : str) : M data :=
  (html <~ lift (fetch url) ;;
   product <~ lift (parse_product str_repr (BeautifulSoup w html)) ;;
   name' <~ t product.[Name] ;;
   description' <~ t product.[Description] ;;
   brand' <~ t product.[Brand] ;;
   category' <~ t product.[Category] ;;
   ret {| image := product.[Image];
          name := name';
          price := product.[Price];
          description := description';
          brand := brand';
          category := category';
          weight := product.[Weight] |})%M.

(** [extract], lines 149 to 171: the context it renders, and the calls
    made to the translation provider. *)
Definition extract (url : str) : Context * list value :=
  match extract_body url [] with
  | (Ok result, calls) => ({| result_ := Some result; error := None |}, calls)
  | (Raise (HTTPStatusError status_code _), calls) =>
    ({| result_ := None;
        error := Some (u "HTTP error: " ++ str_of_Z status_code) |}, calls)
  | (Raise e, calls) =>
    ({| result_ := None;
        error := Some (u "Unexpected error: " ++ exn_str e) |}, calls)
  end.

End Handler.

(** [repr] of a string of letters and digits: the string in single quotes. *)
Definition quoted (s : str) : str := u "'" ++ s ++ u "'".

(** * Specification predicates *)

(** [s] has no white space at either end, and every white space character
    in it is a single U+0020 between two other characters. *)
Definition normalized (s : str) : Prop :=
  (forall c r, s = c :: r -> isspace c = false) /\
  (forall r c, s = r ++ [c] -> isspace c = false) /\
  (forall l a b r, s = l ++ a :: b :: r ->
                   isspace a = true -> a = SP /\ isspace b = false).

(** The same without the two ends, as a check along the string;
    [prev] tells that the character before is white space. *)
Fixpoint spaced (prev : bool) (s : str) : bool :=
  match s with
  | [] => true
  | c :: s' =>
    if isspace c then negb prev && (c =? SP) && spaced true s'
    else spaced false s'
  end.


(** [sub] occurs in [s]. *)
Definition contains (sub s : str) : Prop :=
  exists l r, s = l ++ sub ++ r.

(** A value that [t] gives back unchanged when the provider fails: a
    string, or anything true. *)
Definition texty (v : value) : bool := truthy v || is_str v.

(** The fields that the handler hands to [t]. *)
Definition translated_keys : list key := [Name; Description; Brand; Category].

(** The value of [t text], without the log of calls. *)
Definition t_value (w : World) (text : value) : value :=
  if truthy text
  then match translate w text with
       | Ok translated => translated
       | Raise _ => text
       end
  else PStr [].

(** A pattern without a capture group. *)
Fixpoint groupless (r : Re.regex) : bool :=
  match r with
  | Re.Eps | Re.Lit _ | Re.Class _ | Re.Plus _ => true
  | Re.Cat r1 r2 | Re.Alt r1 r2 => groupless r1 && groupless r2
  | Re.Opt r1 => groupless r1
  | Re.Group _ => false
  end.

(** An object is declared a product: it is a dict whose [@type] is the
    string ["Product"] or the string ["product"]. *)
Definition declared_product (obj : value) : Prop :=
  exists kvs, obj = PDict kvs /\
              (dict_get kvs (u "@type") = PStr (u "Product") \/
               dict_get kvs (u "@type") = PStr (u "product")).

(** * Example pages *)

Module Examples.

(** A page with these script tags and this text, and nothing else that
    the fallback rules look for. *)
Definition page (scripts : list script) (text : str) : Soup :=
  {| ld_json := scripts; og_image := None; h1 := None; product_brand := None;
     product_price := None; product_desc := None; breadcrumb := [];
     page_text := text |}.

(** A JSON-LD object of type Product with these other members. *)
Definition product (members : list (str * value)) : value :=
  PDict ((u "@type", PStr (u "Product")) :: members).

(** [additionalProperty] holds a string instead of an object. *)
Definition page_property_string : Soup :=
  page [Parsed (product [(u "name", PStr (u "Tea"));
                         (u "additionalProperty", PList [PStr (u "350 g")])])] [].

(** [category] holds a number next to a string. *)
Definition page_category_number : Soup :=
  page [Parsed (product [(u "name", PStr (u "Tea"));
                         (u "category", PList [PStr (u "Drinks"); PInt 5])])] [].

(** The name is a number, the first image is [null]. *)
Definition page_numeric_name : Soup :=
  page [Parsed (product [(u "name", PInt 5); (u "image", PList [PNone])])] [].

(** A name with white space to squeeze. *)
Definition page_spaced_name : Soup :=
  page [Parsed (product [(u "name", PStr (u "  Green   Tea "))])] [].

(** Two script tags, each with a Product. *)
Definition page_two_products : Soup :=
  page [Parsed (product [(u "name", PStr (u "A")); (u "brand", PStr (u "X"))]);
        Parsed (product [(u "name", PStr (u "B"))])] [].

(** One script tag with an array of two Products. *)
Definition page_product_array : Soup :=
  page [Parsed (PList [product [(u "name", PStr (u "A")); (u "brand", PStr (u "X"))];
                       product [(u "name", PStr (u "B"))]])] [].

(** [@type] in capitals. *)
Definition page_upper_type : Soup :=
  page [Parsed (PDict [(u "@type", PStr (u "PRODUCT")); (u "name", PStr (u "Tea"))])] [].

(** [@type] as an array. *)
Definition typed_by_array : list (str * value) :=
  [(u "@type", PList [PStr (u "Product"); PStr (u "Thing")]);
   (u "name", PStr (u "Tea"))].

Definition page_array_type : Soup := page [Parsed (PDict typed_by_array)] [].

(** A Product with a name, on a page that also has a heading. *)
Definition page_name_and_heading : Soup :=
  {| ld_json := [Parsed (product [(u "name", PStr (u "Tea"))])];
     og_image := Some (Some (u "tea.jpg")); h1 := Some (u "Heading");
     product_brand := None; product_price := None; product_desc := None;
     breadcrumb := []; page_text := u "Heading" |}.

(** Texts with a weight. *)
Definition text_two_weights : str := u "Ağırlık: 2 kg, Ağırlık: 350 g".
Definition text_net_weight : str := u "Net Ağırlık: 350 g (yaklaşık)".
Definition text_reversed : str := u "Paket 350 gr ağırlık".

(** The collaborators of the handler: a server that answers with a page
    that parses to [soup], or with an error status, and a provider that
    answers [reply]. *)
Definition serving (soup : Soup) (reply : value -> result value) : World :=
  {| client_get := fun _ => Ok {| raise_for_status := Ok tt; text := [] |};
     BeautifulSoup := fun _ => soup;
     translate := reply |}.

Definition refusing (status : Z) : World :=
  {| client_get := fun _ =>
       Ok {| raise_for_status := Raise (HTTPStatusError status (u "Client error"));
             text := [] |};
     BeautifulSoup := fun _ => page [] [];
     translate := fun text => Ok text |}.

Definition failing (text : value) : result value := Raise (Error (u "rate limit")).

Definition marking (text : value) : result value := Ok (PStr (u "X")).

End Examples.

(** * Further specification predicates *)

(** A character that is not white space. *)
Definition nonspace (c : char) : bool := negb (isspace c).

(** A script tag whose text is JSON. *)
Definition is_parsed (tag : script) : bool :=
  match tag with
  | Parsed _ => true
  | Unparsable => false
  end.

(** The same page with other script tags. *)
Definition with_scripts (tags : list script) (soup : Soup) : Soup :=
  {| ld_json := tags; og_image := og_image soup; h1 := h1 soup;
     product_brand := product_brand soup; product_price := product_price soup;
     product_desc := product_desc soup; breadcrumb := breadcrumb soup;
     page_text := page_text soup |}.

(** The members of a Product object that [parse_product] reads. *)
Definition read_members : list str :=
  [u "name"; u "image"; u "brand"; u "offers"; u "description"; u "category";
   u "categoryName"; u "additionalProperty"; u "additionalProperties"].

(** An entry of [additionalProperty] that the loop of lines 86 to 89 can
    take: a dict whose [name] is a string, or missing or otherwise false. *)
Definition safe_property (p : value) : bool :=
  match p with
  | PDict pd => is_str (py_or (dict_get pd (u "name")) (PStr []))
  | _ => false
  end.

(** A Product object of a shape that lines 59 to 89 can take: the entries
    of a category list are strings and the entries of a property list are
    safe. *)
Definition safe_object (obj : list (str * value)) : bool :=
  match py_or (dict_get obj (u "category")) (dict_get obj (u "categoryName")) with
  | PList l => forallb is_str l
  | _ => true
  end &&
  match py_or (dict_get obj (u "additionalProperty"))
              (dict_get obj (u "additionalProperties")) with
  | PList l => forallb safe_property l
  | _ => true
  end.

(** An entry of [additionalProperty] whose name speaks of a weight
    (line 88), and the weight it gives (line 89). *)
Definition names_weight (pd : list (str * value)) : bool :=
  match py_or (dict_get pd (u "name")) (PStr []) with
  | PStr s => str_in (u "ağırlık") (str_lower s) || str_in (u "weight") (str_lower s)
  | _ => false
  end.

Definition property_weight (pd : list (str * value)) : value :=
  py_or (dict_get pd (u "value")) (py_or (dict_get pd (u "unitCode")) (PStr [])).

(** The exceptions that a shape of the structured data can cause. *)
Definition shape_error (e : exn) : Prop :=
  (exists msg, e = AttributeError msg) \/ (exists msg, e = TypeError msg).

(** The texts that a pattern matches. *)
Fixpoint denotes (r : Re.regex) (q : str) : Prop :=
  match r with
  | Re.Eps => q = []
  | Re.Lit c => exists ch, q = [ch] /\ Re.lit_match c ch = true
  | Re.Class p => exists ch, q = [ch] /\ p ch = true
  | Re.Cat r1 r2 => exists q1 q2, q = q1 ++ q2 /\ denotes r1 q1 /\ denotes r2 q2
  | Re.Alt r1 r2 => denotes r1 q \/ denotes r2 q
  | Re.Opt r1 => q = [] \/ denotes r1 q
  | Re.Plus p => q <> [] /\ forallb p q = true
  | Re.Group r1 => denotes r1 q
  end.

(** Some part of the text [s] matches the pattern [r]. *)
Definition occurs (r : Re.regex) (s : str) : Prop :=
  exists pre q post, s = pre ++ q ++ post /\ denotes r q.

Module MoreExamples.

Import Examples.

(** A page with a heading and a breadcrumb and no structured data. *)
Definition page_heading_only : Soup :=
  {| ld_json := [Unparsable; Parsed (PStr (u "text"))];
     og_image := None; h1 := Some (u "Green  Tea");
     product_brand := None; product_price := None; product_desc := None;
     breadcrumb := [u "Home"; u "Tea"]; page_text := u "Green  Tea" |}.

(** A Product of a safe shape, among script tags of other kinds. *)
Definition safe_product : list (str * value) :=
  [(u "@type", PStr (u "Product")); (u "name", PStr (u "Tea"));
   (u "category", PList [PStr (u "Drinks"); PStr (u "Tea")]);
   (u "additionalProperty",
    PList [PDict [(u "name", PStr (u "Net Weight")); (u "value", PStr (u "350 g"))];
           PDict [(u "value", PStr (u "green"))]])].

Definition page_safe_product : Soup :=
  page [Unparsable; Parsed (PList [PStr (u "x"); PDict safe_product])] [].

(** A Product object with none of the members that are read. *)
Definition bare_product : list (str * value) :=
  [(u "@type", PStr (u "Product")); (u "sku", PStr (u "T-1"))].

(** Two properties that name a weight. *)
Definition gross_weight : list (str * value) :=
  [(u "name", PStr (u "Gross weight")); (u "value", PStr (u "400 g"))].

Definition net_weight : list (str * value) :=
  [(u "name", PStr (u "Net Ağırlık")); (u "unitCode", PStr (u "GRM"))].

(** A property that does not name a weight. *)
Definition colour : list (str * value) :=
  [(u "name", PStr (u "Colour")); (u "value", PStr (u "green"))].

(** An offer with a price and no currency. *)
Definition offer_without_currency : list (str * value) :=
  [(u "@type", PStr (u "Product"));
   (u "offers", PDict [(u "price", PStr (u " 12,50 "))])].

(** A server that answers with an error status and a page of its own. *)
Definition refusing_with_page (status : Z) (soup : Soup) : World :=
  {| client_get := fun _ =>
       Ok {| raise_for_status := Raise (HTTPStatusError status (u "Client error"));
             text := u "<h1>Not found</h1>" |};
     BeautifulSoup := fun _ => soup;
     translate := fun text => Ok text |}.

(** A Product whose property list holds a string. *)
Definition product_with_text_property : list (str * value) :=
  [(u "@type", PStr (u "Product"));
   (u "additionalProperty", PList [PStr (u "350 g")])].

(** A record with values in every field. *)
Definition filled : data :=
  {| image := PStr (u "tea.jpg"); name := PStr (u "Tea"); price := PStr (u "12 TRY");
     description := PStr (u "Leaves"); brand := PStr (u "X");
     category := PStr (u "Drinks"); weight := PStr (u "1 kg") |}.

End MoreExamples.
(** * Lemmas *)

(** ** Strings *)

Lemma str_eqb_eq (a b : str) : str_eqb a b = true <-> a = b.
Proof.
  revert b; induction a as [|x a IH]; intros [|y b]; simpl; split;
    try congruence; try reflexivity; intros H.
  - apply andb_true_iff in H as [Hx Hab].
    apply N.eqb_eq in Hx. apply IH in Hab. congruence.
  - injection H as -> ->. rewrite N.eqb_refl. apply IH. reflexivity.
Qed.

Lemma spaced_weaken (s : str) : spaced true s = true -> spaced false s = true.
Proof.
  destruct s as [|c s]; simpl; [reflexivity|].
  destruct (isspace c); [discriminate | trivial].
Qed.

Lemma sub_ws_spaced (v : str) (b : bool) : spaced b (sub_ws b v) = true.
Proof.
  revert b; induction v as [|c v IH]; intros b; simpl; [reflexivity|].
  destruct (isspace c) eqn:Hc.
  - destruct b; [apply IH|].
    change (spaced false (SP :: sub_ws true v)) with (spaced true (sub_ws true v)).
    apply IH.
  - simpl. rewrite Hc. apply IH.
Qed.

Lemma spaced_tail (b : bool) (c : char) (s : str) :
  spaced b (c :: s) = true -> exists b', spaced b' s = true.
Proof.
  simpl. destruct (isspace c).
  - intros H. apply andb_true_iff in H as [_ H]. eauto.
  - eauto.
Qed.

Lemma spaced_prefix (b : bool) (s r : str) :
  spaced b (s ++ r) = true -> spaced b s = true.
Proof.
  revert b; induction s as [|c s IH]; intros b; simpl; [reflexivity|].
  destruct (isspace c).
  - intros H. apply andb_true_iff in H as [H1 H2].
    rewrite H1. simpl. eapply IH, H2.
  - apply IH.
Qed.

Lemma spaced_pair (p : bool) (l : str) (a b : char) (r : str) :
  spaced p (l ++ a :: b :: r) = true ->
  isspace a = true -> a = SP /\ isspace b = false.
Proof.
  revert p; induction l as [|x l IH]; intros p H Ha.
  - simpl in H. rewrite Ha in H.
    apply andb_true_iff in H as [H1 H2].
    apply andb_true_iff in H1 as [_ H1]. apply N.eqb_eq in H1.
    split; [exact H1|].
    destruct (isspace b); [|reflexivity].
    simpl in H2. discriminate.
  - apply spaced_tail in H as [b' H]. eapply IH; eauto.
Qed.

Lemma lstrip_head (s : str) (c : char) (r : str) :
  lstrip s = c :: r -> isspace c = false.
Proof.
  induction s as [|x s IH]; simpl; [discriminate|].
  destruct (isspace x) eqn:Hx; [exact IH|].
  intros H. injection H as -> _. exact Hx.
Qed.

Lemma lstrip_suffix (s : str) : exists p, s = p ++ lstrip s.
Proof.
  induction s as [|x s [p IH]]; simpl.
  - exists []. reflexivity.
  - destruct (isspace x).
    + exists (x :: p). simpl. congruence.
    + exists []. reflexivity.
Qed.

Lemma lstrip_spaced (s : str) : spaced false s = true -> spaced false (lstrip s) = true.
Proof.
  induction s as [|x s IH]; simpl; [trivial|].
  destruct (isspace x) eqn:Hx.
  - intros H. apply andb_true_iff in H as [_ H].
    apply IH, spaced_weaken, H.
  - intros H. simpl. rewrite Hx. exact H.
Qed.

Lemma rstrip_prefix (s : str) : exists q, s = rstrip s ++ q.
Proof.
  unfold rstrip. destruct (lstrip_suffix (rev s)) as [p Hp].
  exists (rev p). rewrite <- rev_app_distr, <- Hp, rev_involutive. reflexivity.
Qed.

Lemma rstrip_last (s r : str) (c : char) :
  rstrip s = r ++ [c] -> isspace c = false.
Proof.
  unfold rstrip. intros H.
  apply (f_equal (@rev char)) in H.
  rewrite rev_involutive, rev_app_distr in H. simpl in H.
  eapply lstrip_head, H.
Qed.

Lemma strip_normalized (s : str) : spaced false s = true -> normalized (strip s).
Proof.
  intros Hs. unfold strip.
  destruct (rstrip_prefix (lstrip s)) as [q Hq].
  apply lstrip_spaced in Hs.
  split; [|split].
  - intros c r Hc. rewrite Hc in Hq. simpl in Hq. eapply lstrip_head, Hq.
  - intros r c Hc. eapply rstrip_last, Hc.
  - intros l a b r Hl Ha.
    rewrite Hq in Hs. apply spaced_prefix in Hs. rewrite Hl in Hs.
    eapply spaced_pair; eauto.
Qed.

Lemma squeeze_normalized (v : str) : normalized (squeeze v).
Proof. apply strip_normalized, sub_ws_spaced. Qed.

(** ** The record *)

Lemma get_set_same (k : key) (v : value) (d : data) : d.[k := v].[k] = v.
Proof. destruct k; reflexivity. Qed.

Lemma get_set_other (k k' : key) (v : value) (d : data) :
  k <> k' -> d.[k' := v].[k] = d.[k].
Proof. destruct k, k'; intros H; try reflexivity; contradiction H; reflexivity. Qed.

Lemma get_squeeze_data (d : data) (k : key) :
  (squeeze_data d).[k] = squeeze_value d.[k].
Proof. destruct k; reflexivity. Qed.

(** ** Phase 2 *)

Section Phase2.

Variable soup : Soup.

Lemma fill_same (k : key) (d : data) :
  (fill soup k d).[k] =
  if truthy d.[k] then d.[k]
  else match fallback soup k with Some v => v | None => d.[k] end.
Proof.
  unfold fill. destruct (truthy d.[k]); [reflexivity|].
  destruct (fallback soup k); [apply get_set_same | reflexivity].
Qed.

Lemma fill_other (k k' : key) (d : data) :
  k <> k' -> (fill soup k' d).[k] = d.[k].
Proof.
  intros H. unfold fill. destruct (truthy d.[k']); [reflexivity|].
  destruct (fallback soup k'); [apply get_set_other, H | reflexivity].
Qed.

(** Each field goes through its own fallback block and no other. *)
Lemma fallbacks_get (k : key) (d : data) :
  (fallbacks soup d).[k] =
  if truthy d.[k] then d.[k]
  else match fallback soup k with Some v => v | None => d.[k] end.
Proof.
  unfold fallbacks.
  destruct k;
    repeat first [ rewrite fill_same; reflexivity
                 | rewrite fill_other by discriminate ];
    rewrite fill_same;
    repeat rewrite fill_other by discriminate; reflexivity.
Qed.

End Phase2.

(** ** Phase 1 *)

Local Open Scope data_scope.
Local Open Scope result_scope.

Lemma in_strs_product (v : value) :
  in_strs v [u "Product"; u "product"] = true <->
  v = PStr (u "Product") \/ v = PStr (u "product").
Proof.
  unfold in_strs. destruct v as [| | | | s | |];
    try (split; [discriminate | intros [H|H]; discriminate H]).
  cbn [existsb]. rewrite orb_false_r, orb_true_iff, !str_eqb_eq.
  split; intros [H|H]; [left|right|left|right]; congruence.
Qed.

Lemma bind_ok {A B : Type} (c : result A) (k : A -> result B) (b : B) :
  (x <- c ;; k x) = Ok b -> exists a, c = Ok a /\ k a = Ok b.
Proof. destruct c as [a|e]; simpl; [eauto | discriminate]. Qed.

Lemma texty_py_or (a b : value) : texty b = true -> texty (py_or a b) = true.
Proof.
  unfold py_or, texty. destruct (truthy a) eqn:Ha; [rewrite Ha; reflexivity | trivial].
Qed.

Lemma texty_squeeze (v : value) : texty v = true -> texty (squeeze_value v) = true.
Proof. destruct v; simpl; trivial. intros _. apply orb_true_r. Qed.

Ltac translated_key H :=
  destruct H as [<-|[<-|[<-|[<-|[]]]]].

Section Phase1.

Variable str_repr : str -> str.

(** The loop over [addp] writes to [weight] only. *)
Lemma scan_properties_get (addp : list value) (d d' : data) (k : key) :
  scan_properties addp d = Ok d' -> k <> Weight -> d'.[k] = d.[k].
Proof.
  revert d; induction addp as [|p addp IH]; intros d H Hk; simpl in H.
  - congruence.
  - destruct p as [| | | | | |pd]; try discriminate H.
    destruct (py_or (dict_get pd (u "name")) (PStr [])) as [| | | | s | |];
      try discriminate H.
    destruct (str_in (u "ağırlık") (str_lower s) || str_in (u "weight") (str_lower s)).
    + apply IH in H; [|exact Hk]. rewrite H.
      destruct k; try reflexivity. contradiction Hk; reflexivity.
    + apply IH; assumption.
Qed.

Lemma extract_object_texty (obj : list (str * value)) (d d' : data) (k : key) :
  extract_object str_repr obj d = Ok d' ->
  In k translated_keys -> texty d.[k] = true -> texty d'.[k] = true.
Proof.
  unfold extract_object. intros H Hk Hd.
  apply bind_ok in H as (d1 & Hcat & Hw).
  assert (H1 : texty (extract_name obj d).[k] = true).
  { unfold extract_name. translated_key Hk; simpl in *;
      try assumption; apply texty_py_or, Hd. }
  assert (H2 : texty (extract_image obj (extract_name obj d)).[k] = true).
  { revert H1. generalize (extract_name obj d). intros d0 H0.
    unfold extract_image. destruct (dict_get obj (u "image")) as [| | | | s |[|i l]|];
      translated_key Hk; simpl in *; assumption. }
  assert (H3 : texty (extract_brand obj (extract_image obj (extract_name obj d))).[k] = true).
  { revert H2. generalize (extract_image obj (extract_name obj d)). intros d0 H0.
    unfold extract_brand. destruct (dict_get obj (u "brand")) as [| | | | s | |b];
      translated_key Hk; simpl in *; try assumption;
        try (unfold texty; apply orb_true_r).
    apply texty_py_or, H0. }
  assert (H4 : texty (extract_price str_repr obj
                        (extract_brand obj (extract_image obj (extract_name obj d)))).[k] = true).
  { revert H3. generalize (extract_brand obj (extract_image obj (extract_name obj d))).
    intros d0 H0.
    unfold extract_price. destruct (first_offer obj) as [| | | | | |o];
      translated_key Hk; simpl in *; assumption. }
  assert (H5 : texty (extract_description obj (extract_price str_repr obj
                        (extract_brand obj (extract_image obj (extract_name obj d))))).[k] = true).
  { revert H4. generalize (extract_price str_repr obj
                             (extract_brand obj (extract_image obj (extract_name obj d)))).
    intros d0 H0.
    unfold extract_description. translated_key Hk; simpl in *;
      try assumption; apply texty_py_or, H0. }
  assert (H6 : texty d1.[k] = true).
  { revert H5 Hcat. generalize (extract_description obj (extract_price str_repr obj
                             (extract_brand obj (extract_image obj (extract_name obj d))))).
    intros d0 H0 Hcat.
    unfold extract_category in Hcat.
    destruct (py_or (dict_get obj (u "category")) (dict_get obj (u "categoryName")))
      as [| | | | s |l|]; try (injection Hcat as <-; exact H0).
    - injection Hcat as <-. translated_key Hk; simpl in *; try assumption;
        unfold texty; apply orb_true_r.
    - apply bind_ok in Hcat as (items & _ & Hcat). injection Hcat as <-.
      translated_key Hk; simpl in *; try assumption;
        unfold texty; apply orb_true_r. }
  unfold extract_weight in Hw.
  assert (Hkw : k <> Weight) by (translated_key Hk; discriminate).
  destruct (py_or (dict_get obj (u "additionalProperty"))
                  (dict_get obj (u "additionalProperties"))) as [| | | | |l|];
    try (injection Hw as <-; exact H6).
  rewrite (scan_properties_get _ _ _ _ Hw Hkw). exact H6.
Qed.

Lemma scan_candidates_texty (candidates : list value) (d d' : data) (k : key) :
  scan_candidates str_repr candidates d = Ok d' ->
  In k translated_keys -> texty d.[k] = true -> texty d'.[k] = true.
Proof.
  induction candidates as [|obj rest IH]; simpl; intros H Hk Hd.
  - injection H as <-. exact Hd.
  - destruct obj as [| | | | | |kvs]; auto.
    destruct (in_strs (dict_get kvs (u "@type")) [u "Product"; u "product"]); auto.
    eapply extract_object_texty; eauto.
Qed.

Lemma scan_scripts_texty (tags : list script) (d d' : data) (k : key) :
  scan_scripts str_repr tags d = Ok d' ->
  In k translated_keys -> texty d.[k] = true -> texty d'.[k] = true.
Proof.
  revert d; induction tags as [|[|js] rest IH]; simpl; intros d H Hk Hd.
  - injection H as <-. exact Hd.
  - eauto.
  - apply bind_ok in H as (d1 & H1 & H2).
    eapply IH; eauto. eapply scan_candidates_texty; eauto.
Qed.

Lemma fallback_texty (soup : Soup) (k : key) (v : value) :
  fallback soup k = Some v -> In k translated_keys -> texty v = true.
Proof.
  intros H Hk. translated_key Hk; simpl in H.
  - destruct (h1 soup); [injection H as <- | discriminate]. apply orb_true_r.
  - destruct (product_desc soup); [injection H as <- | discriminate]. apply orb_true_r.
  - destruct (product_brand soup); [injection H as <- | discriminate]. apply orb_true_r.
  - destruct (breadcrumb soup); [discriminate | injection H as <-]. apply orb_true_r.
Qed.

(** The four fields handed to [t] hold a string or a true value. *)
Lemma parse_product_texty (soup : Soup) (r : data) (k : key) :
  parse_product str_repr soup = Ok r -> In k translated_keys -> texty r.[k] = true.
Proof.
  unfold parse_product, structured. intros H Hk.
  apply bind_ok in H as (d & Hd & Hr). injection Hr as <-.
  rewrite get_squeeze_data. apply texty_squeeze.
  assert (Ht : texty d.[k] = true).
  { eapply scan_scripts_texty; eauto. translated_key Hk; reflexivity. }
  rewrite fallbacks_get.
  destruct (truthy d.[k]); [exact Ht|].
  destruct (fallback soup k) eqn:Hf; [|exact Ht].
  eapply fallback_texty; eauto.
Qed.

End Phase1.

(** ** The matcher *)

Section MatcherFacts.

Context {A : Type}.

(** What [star] hands to its continuation is a suffix of the text, at the
    position that many characters further. *)
Lemma star_sound (p : char -> bool) (s : str) :
  forall (pos : nat) (k : nat -> str -> option A) (a : A),
    Re.star p pos s k = Some a ->
    exists q s', s = q ++ s' /\ k (pos + List.length q)%nat s' = Some a.
Proof.
  induction s as [|c s IH]; intros pos k a H; simpl in H.
  - exists [], []. split; [reflexivity|]. simpl. rewrite Nat.add_0_r. exact H.
  - destruct (p c).
    + destruct (Re.star p (S pos) s k) as [a0|] eqn:Hs.
      * injection H as ->. apply IH in Hs as (q & s' & -> & Hk).
        exists (c :: q), s'. split; [reflexivity|].
        simpl. rewrite Nat.add_succ_r. exact Hk.
      * exists [], (c :: s). split; [reflexivity|].
        simpl. rewrite Nat.add_0_r. exact H.
    + exists [], (c :: s). split; [reflexivity|].
      simpl. rewrite Nat.add_0_r. exact H.
Qed.

(** The same for [run]; a pattern without a group leaves the span of
    group 1 as it was. *)
Lemma run_sound (r : Re.regex) :
  forall (pos : nat) (s : str) (g : option Re.span)
         (k : nat -> str -> option Re.span -> option A) (a : A),
    Re.run r pos s g k = Some a ->
    exists q s' g',
      s = q ++ s' /\ k (pos + List.length q)%nat s' g' = Some a /\
      (groupless r = true -> g' = g).
Proof.
  induction r as [|c|p|r1 IH1 r2 IH2|r1 IH1 r2 IH2|r1 IH1|p|r1 IH1];
    intros pos s g k a H; simpl in H.
  - exists [], s, g. simpl. rewrite Nat.add_0_r. auto.
  - destruct s as [|ch s]; [discriminate|].
    destruct (Re.lit_match c ch); [|discriminate].
    exists [ch], s, g. simpl. rewrite Nat.add_1_r. auto.
  - destruct s as [|ch s]; [discriminate|].
    destruct (p ch); [|discriminate].
    exists [ch], s, g. simpl. rewrite Nat.add_1_r. auto.
  - apply IH1 in H as (q1 & s1 & g1 & -> & H & Hg1).
    apply IH2 in H as (q2 & s2 & g2 & -> & H & Hg2).
    exists (q1 ++ q2), s2, g2. rewrite <- app_assoc, length_app, Nat.add_assoc.
    repeat split; [exact H|].
    simpl. intros Hgl. apply andb_true_iff in Hgl as [Ha Hb].
    rewrite Hg2, Hg1; auto.
  - destruct (Re.run r1 pos s g k) as [a0|] eqn:H1.
    + injection H as ->. apply IH1 in H1 as (q & s' & g' & -> & H & Hg).
      exists q, s', g'. repeat split; [exact H|].
      simpl. intros Hgl. apply andb_true_iff in Hgl as [Ha Hb]. auto.
    + apply IH2 in H as (q & s' & g' & -> & H & Hg).
      exists q, s', g'. repeat split; [exact H|].
      simpl. intros Hgl. apply andb_true_iff in Hgl as [Ha Hb]. auto.
  - destruct (Re.run r1 pos s g k) as [a0|] eqn:H1.
    + injection H as ->. apply IH1 in H1 as (q & s' & g' & -> & H & Hg).
      exists q, s', g'. auto.
    + exists [], s, g. simpl. rewrite Nat.add_0_r. auto.
  - destruct s as [|ch s]; [discriminate|].
    destruct (p ch); [|discriminate].
    apply star_sound in H as (q & s' & -> & H).
    exists (ch :: q), s', g. simpl. rewrite Nat.add_succ_r. auto.
  - apply IH1 in H as (q & s' & g' & -> & H & _).
    exists q, s', (Some (pos, (pos + List.length q)%nat)).
    repeat split; [exact H|]. simpl. discriminate.
Qed.

Lemma run_cat (r1 r2 : Re.regex) (pos : nat) (s : str) (g : option Re.span)
      (k : nat -> str -> option Re.span -> option A) (a : A) :
  Re.run (Re.Cat r1 r2) pos s g k = Some a ->
  exists q s' g',
    s = q ++ s' /\ Re.run r2 (pos + List.length q)%nat s' g' k = Some a /\
    (groupless r1 = true -> g' = g).
Proof. intros H. simpl in H. apply run_sound in H. exact H. Qed.

(** A group that begins with [p+] spans a text that begins with a
    character of [p]. *)
Lemma run_group_plus (p : char -> bool) (r : Re.regex) (pos : nat) (s : str)
      (g : option Re.span) (k : nat -> str -> option Re.span -> option A) (a : A) :
  Re.run (Re.Group (Re.Cat (Re.Plus p) r)) pos s g k = Some a ->
  exists c t s',
    s = (c :: t) ++ s' /\ p c = true /\
    k (pos + List.length (c :: t))%nat s'
      (Some (pos, (pos + List.length (c :: t))%nat)) = Some a.
Proof.
  intros H. simpl in H.
  destruct s as [|c s]; [discriminate|].
  destruct (p c) eqn:Hc; [|discriminate].
  apply star_sound in H as (q & s1 & -> & H).
  apply run_sound in H as (q2 & s2 & g2 & -> & H & _).
  exists c, (q ++ q2), s2. simpl.
  rewrite <- app_assoc. repeat split; [exact Hc|].
  rewrite length_app.
  replace (pos + S (List.length q + List.length q2))%nat
    with (S pos + List.length q + List.length q2)%nat by lia.
  exact H.
Qed.

End MatcherFacts.

Lemma slice_app (a b c : str) :
  Re.slice (a ++ b ++ c) (List.length a, (List.length a + List.length b)%nat) = b.
Proof.
  unfold Re.slice. simpl.
  rewrite skipn_app, skipn_all, Nat.sub_diag. simpl.
  replace (List.length a + List.length b - List.length a)%nat
    with (List.length b + 0)%nat by lia.
  rewrite firstn_app_2. simpl. apply app_nil_r.
Qed.

(** [search] reports a match that [match_here] finds somewhere in the text. *)
Lemma search_sound (r : Re.regex) (s : str) (m : option str) :
  Re.search r s = Some m ->
  exists q s', s = q ++ s' /\ Re.match_here r s' = Some m.
Proof.
  induction s as [|c s IH]; simpl; intros H.
  - destruct (Re.match_here r []) eqn:Hm; [|discriminate].
    exists [], []. split; [reflexivity | congruence].
  - destruct (Re.match_here r (c :: s)) eqn:Hm.
    + exists [], (c :: s). split; [reflexivity | congruence].
    + apply IH in H as (q & s' & -> & H). exists (c :: q), s'. auto.
Qed.

(** [search] skips the positions where [match_here] finds nothing. *)
Lemma search_skip (r : Re.regex) (pre s : str) :
  (forall i, (i < List.length pre)%nat -> Re.match_here r (skipn i (pre ++ s)) = None) ->
  Re.search r (pre ++ s) = Re.search r s.
Proof.
  induction pre as [|c pre IH]; intros H; [reflexivity|].
  pose proof (H 0%nat ltac:(simpl; lia)) as H0. simpl in H0.
  simpl. rewrite H0.
  apply IH. intros i Hi. apply (H (S i)). simpl. lia.
Qed.

(** A match somewhere in the text makes [search] succeed. *)
Lemma search_finds (r : Re.regex) (pre s : str) (m : option str) :
  Re.match_here r s = Some m -> exists m', Re.search r (pre ++ s) = Some m'.
Proof.
  intros H. induction pre as [|c pre [m' IH]]; simpl.
  - destruct s; simpl; rewrite H; eauto.
  - destruct (Re.match_here r (c :: pre ++ s)); eauto.
Qed.

Lemma search_here (r : Re.regex) (s : str) (m : option str) :
  Re.match_here r s = Some m -> Re.search r s = Some m.
Proof. intros H. destruct s; simpl; rewrite H; reflexivity. Qed.

(** ** The weight patterns *)

Lemma digit_class_bound (c : char) : digit_class c = true -> (N.to_nat c < 58)%nat.
Proof.
  unfold digit_class. intros H.
  apply orb_true_iff in H as [H|H]; [apply orb_true_iff in H as [H|H]|].
  - apply andb_true_iff in H as [_ H]. apply N.leb_le in H. lia.
  - apply N.eqb_eq in H. lia.
  - apply N.eqb_eq in H. lia.
Qed.

Lemma digit_not_space (c : char) : digit_class c = true -> isspace c = false.
Proof.
  intros H.
  assert (Hall : forallb (fun n => implb (digit_class (N.of_nat n))
                                         (negb (isspace (N.of_nat n))))
                         (seq 0 58) = true) by (vm_compute; reflexivity).
  rewrite forallb_forall in Hall.
  pose proof (digit_class_bound c H) as Hb.
  assert (Hin : In (N.to_nat c) (seq 0 58)) by (apply in_seq; lia).
  apply Hall in Hin. rewrite N2Nat.id, H in Hin. cbn [implb] in Hin.
  apply negb_true_iff, Hin.
Qed.

Lemma lstrip_keeps (s : str) (c : char) :
  In c s -> isspace c = false -> lstrip s <> [].
Proof.
  induction s as [|x s IH]; simpl; [contradiction|].
  intros [->|Hin] Hc.
  - rewrite Hc. discriminate.
  - destruct (isspace x); [auto | discriminate].
Qed.

(** A string that begins with a character that is not white space keeps it
    when squeezed. *)
Lemma squeeze_head (c : char) (s : str) :
  isspace c = false -> exists s', squeeze (c :: s) = c :: s'.
Proof.
  intros Hc. unfold squeeze, strip. simpl. rewrite Hc. simpl. rewrite Hc.
  destruct (rstrip_prefix (c :: sub_ws false s)) as [q Hq].
  destruct (rstrip (c :: sub_ws false s)) as [|x r] eqn:Hr.
  - exfalso. unfold rstrip in Hr.
    apply (f_equal (@rev char)) in Hr. rewrite rev_involutive in Hr. simpl in Hr.
    revert Hr. apply (lstrip_keeps _ c); [|exact Hc].
    apply in_or_app. right. left. reflexivity.
  - simpl in Hq. injection Hq as <- _. eauto.
Qed.

(** [group(1)] of a match of the first pattern begins with a digit, a dot
    or a comma. *)
Lemma weight_re1_group (s : str) (m : option str) :
  Re.match_here weight_re1 s = Some m ->
  exists c t, m = Some (c :: t) /\ digit_class c = true.
Proof.
  unfold Re.match_here, weight_re1. intros H.
  apply run_cat in H as (q1 & s1 & g1 & -> & H & _).
  apply run_cat in H as (q2 & s2 & g2 & -> & H & _).
  unfold amount_re in H.
  apply run_group_plus in H as (c & t & s3 & -> & Hc & H).
  injection H as <-. exists c, t. split; [|exact Hc].
  simpl option_map. f_equal.
  rewrite (app_assoc q1 q2), <- length_app.
  apply (slice_app (q1 ++ q2) (c :: t) s3).
Qed.

(** The same for the second pattern. *)
Lemma weight_re2_group (s : str) (m : option str) :
  Re.match_here weight_re2 s = Some m ->
  exists c t, m = Some (c :: t) /\ digit_class c = true.
Proof.
  unfold Re.match_here, weight_re2. intros H.
  change (Re.run amount_re 0 s None
            (fun pos' s' g' =>
               Re.run (Re.Cat (Re.Plus isspace) (Re.word (u "ağırlık"))) pos' s' g'
                 (fun _ _ g => Some (option_map (Re.slice s) g))) = Some m) in H.
  unfold amount_re in H.
  apply run_group_plus in H as (c & t & s1 & -> & Hc & H).
  apply run_sound in H as (q & s2 & g2 & -> & H & Hg).
  rewrite (Hg eq_refl) in H.
  injection H as <-. exists c, t. split; [|exact Hc].
  simpl option_map. f_equal.
  apply (slice_app [] (c :: t) (q ++ s2)).
Qed.

(** The weight found in the text of a page is a string that begins with a
    digit, a dot or a comma. *)
Lemma weight_in_text_digit (text : str) (v : value) :
  weight_in_text text = Some v ->
  exists c t, v = PStr (c :: t) /\ digit_class c = true.
Proof.
  unfold weight_in_text. intros H.
  destruct (Re.search weight_re1 text) as [m|] eqn:H1.
  - apply search_sound in H1 as (q & s' & _ & H1).
    apply weight_re1_group in H1 as (c & t & -> & Hc).
    injection H as <-. eauto.
  - destruct (Re.search weight_re2 text) as [m|] eqn:H2; [|discriminate].
    apply search_sound in H2 as (q & s' & _ & H2).
    apply weight_re2_group in H2 as (c & t & -> & Hc).
    injection H as <-. eauto.
Qed.

(** The two texts of the specification, wherever they stand. *)
Lemma weight_re1_here (post : str) :
  Re.match_here weight_re1 (u "Ağırlık: 350 g" ++ post) = Some (Some (u "350 g")).
Proof. vm_compute. reflexivity. Qed.

Lemma weight_re2_here (post : str) :
  Re.match_here weight_re2 (u "350 gr ağırlık" ++ post) = Some (Some (u "350 gr")).
Proof. vm_compute. reflexivity. Qed.

(** * Properties of the extraction pipeline *)

Import Examples.

(** C1 (code fails the claim). [parse_product] raises on structured data of
    an unexpected shape: an entry of [additionalProperty] that is not a
    dict makes [p.get] raise AttributeError, and an entry of a [category]
    array that is not a string makes [join] raise TypeError.  Neither is
    caught inside [parse_product]. *)
Theorem parse_product_raises (str_repr : str -> str) :
  parse_product str_repr page_property_string
  = Raise (AttributeError (u "'str' object has no attribute 'get'")) /\
  parse_product str_repr page_category_number
  = Raise (TypeError (u "sequence item 1: expected str instance, int found")).
Proof. split; vm_compute; reflexivity. Qed.

(** C2, as stated, fails: a name that is a number in the structured data
    is returned as that number, and a [null] first image as [None]. *)
Lemma attribute_not_a_string :
  exists r, parse_product quoted page_numeric_name = Ok r /\
            r.[Name] = PInt 5 /\ is_str r.[Name] = false /\ r.[Image] = PNone.
Proof. eexists. split; [vm_compute; reflexivity|]. repeat split. Qed.

Lemma fallback_is_str (soup : Soup) (k : key) (v : value) :
  fallback soup k = Some v -> is_str v = true.
Proof.
  destruct k; simpl; intros H.
  - destruct (og_image soup) as [[[|c0 c]|]|]; try discriminate.
    injection H as <-. reflexivity.
  - destruct (h1 soup); [injection H as <-; reflexivity | discriminate].
  - destruct (product_price soup); [injection H as <-; reflexivity | discriminate].
  - destruct (product_desc soup); [injection H as <-; reflexivity | discriminate].
  - destruct (product_brand soup); [injection H as <-; reflexivity | discriminate].
  - destruct (breadcrumb soup); [discriminate | injection H as <-; reflexivity].
  - apply weight_in_text_digit in H as (c & t & -> & _). reflexivity.
Qed.

(** C2 (amended). Every attribute of the returned record that is a string
    is empty or whitespace-normalized and trimmed; an attribute that is not
    a string is the value that phase 1 took from the structured data, left
    as it is. *)
Theorem attributes_normalized (str_repr : str -> str) (soup : Soup) (r : data) :
  parse_product str_repr soup = Ok r ->
  (forall k s, r.[k] = PStr s -> normalized s) /\
  (forall k, is_str r.[k] = false ->
             exists d, structured str_repr soup = Ok d /\ r.[k] = d.[k]).
Proof.
  unfold parse_product. intros H.
  apply bind_ok in H as (d & Hd & Hr). injection Hr as <-. split.
  - intros k s Hk. rewrite get_squeeze_data in Hk.
    destruct ((fallbacks soup d).[k]); try discriminate Hk.
    injection Hk as <-. apply squeeze_normalized.
  - intros k Hk. exists d. split; [exact Hd|].
    rewrite get_squeeze_data in *. rewrite fallbacks_get in *.
    destruct (truthy d.[k]).
    + destruct d.[k]; try reflexivity. discriminate Hk.
    + destruct (fallback soup k) as [v|] eqn:Hf.
      * apply fallback_is_str in Hf. destruct v; discriminate.
      * destruct d.[k]; try reflexivity. discriminate Hk.
Qed.

Lemma attributes_normalized_witness : normalized (u "Green Tea").
Proof.
  refine (proj1 (attributes_normalized quoted page_spaced_name
                   {| image := PStr []; name := PStr (u "Green Tea");
                      price := PStr []; description := PStr [];
                      brand := PStr []; category := PStr [];
                      weight := PStr [] |} _) Name (u "Green Tea") _).
  - vm_compute. reflexivity.
  - reflexivity.
Defined.

(** C3 (code fails the claim). The [break] of line 90 ends the loop over
    the candidates of one script tag only: with two script tags that each
    hold a Product, the second one is extracted too and its name replaces
    the name taken from the first, while the brand of the first stays.
    Within one script tag the second Product is not looked at. *)
Theorem later_block_overrides (str_repr : str -> str) :
  parse_product str_repr page_two_products
  = Ok {| image := PStr []; name := PStr (u "B"); price := PStr [];
          description := PStr []; brand := PStr (u "X"); category := PStr [];
          weight := PStr [] |} /\
  parse_product str_repr page_product_array
  = Ok {| image := PStr []; name := PStr (u "A"); price := PStr [];
          description := PStr []; brand := PStr (u "X"); category := PStr [];
          weight := PStr [] |}.
Proof. split; vm_compute; reflexivity. Qed.

Lemma declared_product_dec (kvs : list (str * value)) :
  in_strs (dict_get kvs (u "@type")) [u "Product"; u "product"] = true <->
  declared_product (PDict kvs).
Proof.
  rewrite in_strs_product. unfold declared_product. split.
  - intros H. exists kvs. auto.
  - intros (kvs' & Heq & H). injection Heq as <-. exact H.
Qed.

Lemma scan_candidates_skip (str_repr : str -> str) (obj : value)
      (rest : list value) (d : data) :
  ~ declared_product obj ->
  scan_candidates str_repr (obj :: rest) d = scan_candidates str_repr rest d.
Proof.
  intros H. destruct obj as [| | | | | |kvs]; try reflexivity.
  cbn [scan_candidates].
  destruct (in_strs (dict_get kvs (u "@type")) [u "Product"; u "product"]) eqn:Ht;
    [|reflexivity].
  apply declared_product_dec in Ht. contradiction.
Qed.

(** C5, as stated, fails: ["PRODUCT"] is the word Product in another
    casing, and an object of that type is not extracted. *)
Lemma upper_case_type_skipped :
  str_lower (u "PRODUCT") = str_lower (u "Product") /\
  parse_product quoted page_upper_type = Ok empty_data.
Proof. split; vm_compute; reflexivity. Qed.

(** C5 (amended). A structured-data object is selected for phase 1 exactly
    when it is a dict whose [@type] is the string ["Product"] or the string
    ["product"]: such an object is extracted and ends the scan of its
    script tag, any other is passed over. *)
Theorem product_type_exact (str_repr : str -> str) (obj : value)
        (rest : list value) (d : data) :
  (declared_product obj /\
   exists kvs, obj = PDict kvs /\
               scan_candidates str_repr (obj :: rest) d = extract_object str_repr kvs d)
  \/
  (~ declared_product obj /\
   scan_candidates str_repr (obj :: rest) d = scan_candidates str_repr rest d).
Proof.
  destruct obj as [| | | | | |kvs];
    try (right; split; [intros (kvs' & Heq & _); discriminate Heq | reflexivity]).
  destruct (in_strs (dict_get kvs (u "@type")) [u "Product"; u "product"]) eqn:Ht.
  - left. split; [apply declared_product_dec, Ht|].
    exists kvs. split; [reflexivity|]. cbn [scan_candidates]. rewrite Ht. reflexivity.
  - right. assert (Hn : ~ declared_product (PDict kvs)).
    { intros H. apply declared_product_dec in H. congruence. }
    split; [exact Hn | apply scan_candidates_skip, Hn].
Qed.

Lemma scan_scripts_none (str_repr : str -> str) (tags : list script) (d : data) :
  (forall js obj, In (Parsed js) tags -> In obj (candidates_of js) ->
                  ~ declared_product obj) ->
  scan_scripts str_repr tags d = Ok d.
Proof.
  induction tags as [|[|js] tags IH]; intros H; simpl.
  - reflexivity.
  - apply IH. intros js obj Hin. apply H. right. exact Hin.
  - assert (Hc : forall l, (forall obj, In obj l -> ~ declared_product obj) ->
                           scan_candidates str_repr l d = Ok d).
    { induction l as [|obj l IHl]; intros Hl; [reflexivity|].
      rewrite scan_candidates_skip by (apply Hl; left; reflexivity).
      apply IHl. intros o Ho. apply Hl. right. exact Ho. }
    rewrite Hc by (intros obj Ho; apply (H js obj); [left; reflexivity | exact Ho]).
    simpl. apply IH. intros js' obj Hin. apply H. right. exact Hin.
Qed.

(** C10. An object whose [@type] is not exactly the string ["Product"] or
    ["product"] is passed over by the scan, and an object whose [@type] is
    an array is such an object; a page whose structured-data objects are
    all of this kind leaves phase 1 with the empty record. *)
Theorem non_product_skipped (str_repr : str -> str) :
  (forall obj rest d,
      ~ declared_product obj ->
      scan_candidates str_repr (obj :: rest) d = scan_candidates str_repr rest d) /\
  (forall kvs types,
      dict_get kvs (u "@type") = PList types -> ~ declared_product (PDict kvs)) /\
  (forall soup,
      (forall js obj, In (Parsed js) (ld_json soup) -> In obj (candidates_of js) ->
                      ~ declared_product obj) ->
      structured str_repr soup = Ok empty_data).
Proof.
  split; [|split].
  - intros obj rest d. apply scan_candidates_skip.
  - intros kvs types Ht (kvs' & Heq & [H|H]); injection Heq as <-; congruence.
  - intros soup H. apply scan_scripts_none, H.
Qed.

Lemma non_product_skipped_witness :
  scan_candidates quoted [PDict typed_by_array] empty_data = Ok empty_data /\
  structured quoted page_array_type = Ok empty_data.
Proof.
  pose proof (non_product_skipped quoted) as (Hskip & Harr & Hpage).
  assert (Hn : ~ declared_product (PDict typed_by_array)).
  { apply (Harr typed_by_array [PStr (u "Product"); PStr (u "Thing")]). reflexivity. }
  split.
  - rewrite (Hskip (PDict typed_by_array) [] empty_data Hn). reflexivity.
  - apply Hpage. simpl. intros js obj [Hjs|[]] Hobj. injection Hjs as <-.
    simpl in Hobj. destruct Hobj as [<-|[]]. exact Hn.
Defined.

(** C6. When phase 1 took a non-empty value for a field from the
    structured data, the returned record holds that value, squeezed like
    every string: no fallback rule of phase 2 has a say in it. *)
Theorem structured_value_wins (str_repr : str -> str) (soup : Soup) (d : data) (k : key) :
  structured str_repr soup = Ok d ->
  truthy d.[k] = true ->
  exists r, parse_product str_repr soup = Ok r /\ r.[k] = squeeze_value d.[k].
Proof.
  intros Hd Hk. unfold parse_product. rewrite Hd. simpl.
  eexists. split; [reflexivity|].
  rewrite get_squeeze_data, fallbacks_get, Hk. reflexivity.
Qed.

Lemma structured_value_wins_witness :
  fallback page_name_and_heading Name = Some (PStr (u "Heading")) /\
  exists r, parse_product quoted page_name_and_heading = Ok r /\ r.[Name] = PStr (u "Tea").
Proof.
  split; [reflexivity|].
  exact (structured_value_wins quoted page_name_and_heading
           {| image := PStr []; name := PStr (u "Tea"); price := PStr [];
              description := PStr []; brand := PStr []; category := PStr [];
              weight := PStr [] |} Name eq_refl eq_refl).
Defined.

(** ** The weight in the text of the page *)

Lemma parse_without_scripts (str_repr : str -> str) (soup : Soup) :
  ld_json soup = [] ->
  parse_product str_repr soup = Ok (squeeze_data (fallbacks soup empty_data)).
Proof. intros H. unfold parse_product, structured. rewrite H. reflexivity. Qed.

Lemma weight_without_scripts (soup : Soup) :
  (squeeze_data (fallbacks soup empty_data)).[Weight]
  = squeeze_value (match weight_in_text (page_text soup) with
                   | Some v => v
                   | None => PStr []
                   end).
Proof. rewrite get_squeeze_data, fallbacks_get. reflexivity. Qed.

(** C7, as stated, fails: the text contains ["Ağırlık: 350 g"], but
    [re.search] takes the first match from the left, which is another
    weight. *)
Lemma earlier_weight_wins :
  ld_json (page [] text_two_weights) = [] /\
  contains (u "Ağırlık: 350 g") text_two_weights /\
  exists r, parse_product quoted (page [] text_two_weights) = Ok r /\
            r.[Weight] = PStr (u "2 kg") /\ r.[Weight] <> PStr (u "350 g").
Proof.
  split; [reflexivity|]. split.
  - exists (u "Ağırlık: 2 kg, "), []. vm_compute. reflexivity.
  - eexists. split; [vm_compute; reflexivity|].
    split; [reflexivity | vm_compute; discriminate].
Qed.

(** C7 (amended). On a page without structured data whose text contains
    ["Ağırlık: 350 g"], the weight is ["350 g"] when the first pattern
    matches at no earlier position.  On one whose text contains
    ["350 gr ağırlık"] the weight is a non-empty string (it begins with a
    digit, a dot or a comma), and it is ["350 gr"], from the reversed
    pattern, when the first pattern matches nowhere and the reversed one at
    no earlier position. *)
Theorem weight_from_text (str_repr : str -> str) (soup : Soup) :
  ld_json soup = [] ->
  (forall pre post,
      page_text soup = pre ++ u "Ağırlık: 350 g" ++ post ->
      (forall i, (i < List.length pre)%nat ->
                 Re.match_here weight_re1 (skipn i (page_text soup)) = None) ->
      exists r, parse_product str_repr soup = Ok r /\ r.[Weight] = PStr (u "350 g")) /\
  (forall pre post,
      page_text soup = pre ++ u "350 gr ağırlık" ++ post ->
      exists r c w, parse_product str_repr soup = Ok r /\
                    r.[Weight] = PStr (c :: w) /\ digit_class c = true) /\
  (forall pre post,
      page_text soup = pre ++ u "350 gr ağırlık" ++ post ->
      Re.search weight_re1 (page_text soup) = None ->
      (forall i, (i < List.length pre)%nat ->
                 Re.match_here weight_re2 (skipn i (page_text soup)) = None) ->
      exists r, parse_product str_repr soup = Ok r /\ r.[Weight] = PStr (u "350 gr")).
Proof.
  intros Hld. rewrite (parse_without_scripts str_repr soup Hld).
  split; [|split].
  - intros pre post Htext Hnone. eexists. split; [reflexivity|].
    rewrite weight_without_scripts. unfold weight_in_text.
    rewrite Htext in *. rewrite (search_skip _ _ _ Hnone).
    rewrite (search_here _ _ _ (weight_re1_here post)).
    vm_compute. reflexivity.
  - intros pre post Htext.
    assert (Hw : exists v, weight_in_text (page_text soup) = Some v).
    { unfold weight_in_text. rewrite Htext.
      destruct (Re.search weight_re1 (pre ++ u "350 gr ağırlık" ++ post)) as [m|] eqn:H1.
      - apply search_sound in H1 as (q & s' & _ & H1).
        apply weight_re1_group in H1 as (c & t & -> & _). eauto.
      - destruct (search_finds weight_re2 pre _ _ (weight_re2_here post)) as [m H2].
        rewrite H2.
        apply search_sound in H2 as (q & s' & _ & H2).
        apply weight_re2_group in H2 as (c & t & -> & _). eauto. }
    destruct Hw as [v Hv].
    destruct (weight_in_text_digit _ _ Hv) as (c & t & -> & Hc).
    destruct (squeeze_head c t (digit_not_space c Hc)) as [w Hsq].
    exists (squeeze_data (fallbacks soup empty_data)), c, w.
    split; [reflexivity|]. split; [|exact Hc].
    rewrite weight_without_scripts, Hv. simpl squeeze_value. rewrite Hsq. reflexivity.
  - intros pre post Htext H1 Hnone. eexists. split; [reflexivity|].
    rewrite weight_without_scripts. unfold weight_in_text.
    rewrite H1. rewrite Htext in *. rewrite (search_skip _ _ _ Hnone).
    rewrite (search_here _ _ _ (weight_re2_here post)).
    vm_compute. reflexivity.
Qed.

Lemma weight_from_text_witness :
  (exists r, parse_product quoted (page [] text_net_weight) = Ok r /\
             r.[Weight] = PStr (u "350 g")) /\
  (exists r c w, parse_product quoted (page [] text_reversed) = Ok r /\
                 r.[Weight] = PStr (c :: w) /\ digit_class c = true) /\
  (exists r, parse_product quoted (page [] text_reversed) = Ok r /\
             r.[Weight] = PStr (u "350 gr")).
Proof.
  split; [|split].
  - apply (proj1 (weight_from_text quoted (page [] text_net_weight) eq_refl)
             (u "Net ") (u " (yaklaşık)")).
    + vm_compute. reflexivity.
    + intros i Hi.
      do 4 (destruct i as [|i]; [vm_compute; reflexivity|]).
      vm_compute in Hi. lia.
  - apply (proj1 (proj2 (weight_from_text quoted (page [] text_reversed) eq_refl))
             (u "Paket ") []).
    vm_compute. reflexivity.
  - apply (proj2 (proj2 (weight_from_text quoted (page [] text_reversed) eq_refl))
             (u "Paket ") []).
    + vm_compute. reflexivity.
    + vm_compute. reflexivity.
    + intros i Hi.
      do 6 (destruct i as [|i]; [vm_compute; reflexivity|]).
      vm_compute in Hi. lia.
Defined.

(** ** The translator adapter *)

Lemma t_spec (w : World) (text : value) (calls : list value) :
  t w text calls
  = (Ok (t_value w text), calls ++ (if truthy text then [text] else [])).
Proof.
  unfold t, t_value, try_except, call_translate, ret.
  destruct (truthy text); simpl.
  - destruct (translate w text); reflexivity.
  - rewrite app_nil_r. reflexivity.
Qed.

(** C9. [t] never raises; when the provider raises, [t] gives the text
    back as it is; for an empty or absent text it gives the empty string
    and the provider is not called. *)
Theorem t_never_raises (w : World) (calls : list value) :
  (forall text, exists v calls', t w text calls = (Ok v, calls')) /\
  (forall text e, truthy text = true -> translate w text = Raise e ->
                  t w text calls = (Ok text, calls ++ [text])) /\
  (forall s e, translate w (PStr s) = Raise e -> fst (t w (PStr s) calls) = Ok (PStr s)) /\
  (forall text, truthy text = false -> t w text calls = (Ok (PStr []), calls)) /\
  t w (PStr []) calls = (Ok (PStr []), calls) /\
  t w PNone calls = (Ok (PStr []), calls).
Proof.
  repeat split.
  - intros text. rewrite t_spec. eauto.
  - intros text e Ht He. rewrite t_spec. unfold t_value. rewrite Ht, He. reflexivity.
  - intros s e He. rewrite t_spec. unfold t_value. simpl fst.
    destruct s as [|c s]; [reflexivity|]. simpl truthy. cbv iota. rewrite He. reflexivity.
  - intros text Ht. rewrite t_spec. unfold t_value. rewrite Ht, app_nil_r. reflexivity.
Qed.

Lemma t_never_raises_witness :
  t (serving (page [] []) failing) (PStr (u "Çay")) [] = (Ok (PStr (u "Çay")), [PStr (u "Çay")]) /\
  fst (t (serving (page [] []) failing) (PStr (u "Çay")) []) = Ok (PStr (u "Çay")) /\
  t (serving (page [] []) failing) (PInt 0) [] = (Ok (PStr []), []).
Proof.
  pose proof (t_never_raises (serving (page [] []) failing) []) as (_ & H1 & H2 & H3 & _).
  split; [|split].
  - exact (H1 (PStr (u "Çay")) (Error (u "rate limit")) eq_refl eq_refl).
  - exact (H2 (u "Çay") (Error (u "rate limit")) eq_refl).
  - exact (H3 (PInt 0) eq_refl).
Defined.

(** ** The handler *)

Section HandlerFacts.

Variable str_repr : str -> str.
Variable w : World.
Variable url : str.

Lemma extract_body_fetch_raises (e : exn) :
  fetch w url = Raise e -> extract_body str_repr w url [] = (Raise e, []).
Proof. intros H. unfold extract_body, bindM, lift. rewrite H. reflexivity. Qed.

Lemma extract_body_parse_raises (html : str) (e : exn) :
  fetch w url = Ok html ->
  parse_product str_repr (BeautifulSoup w html) = Raise e ->
  extract_body str_repr w url [] = (Raise e, []).
Proof.
  intros Hf Hp. unfold extract_body, bindM, lift. rewrite Hf, Hp. reflexivity.
Qed.

Lemma extract_body_ok (html : str) (product : data) :
  fetch w url = Ok html ->
  parse_product str_repr (BeautifulSoup w html) = Ok product ->
  extract_body str_repr w url []
  = (Ok {| image := product.[Image];
           name := t_value w product.[Name];
           price := product.[Price];
           description := t_value w product.[Description];
           brand := t_value w product.[Brand];
           category := t_value w product.[Category];
           weight := product.[Weight] |},
     filter truthy (map (get product) translated_keys)).
Proof.
  intros Hf Hp. unfold extract_body, bindM, lift. rewrite Hf, Hp.
  rewrite !t_spec. unfold ret. f_equal.
  simpl. destruct (truthy (name product)), (truthy (description product)),
           (truthy (brand product)), (truthy (category product)); reflexivity.
Qed.

End HandlerFacts.

(** C4, as stated, fails for [image]: with a provider that answers ["X"] to
    every text, the image of the result is the extracted image and the
    provider was given the name only. *)
Lemma image_not_translated :
  exists r,
    extract quoted (serving page_name_and_heading marking) (u "https://shop/tea")
    = ({| result_ := Some r; error := None |}, [PStr (u "Tea")]) /\
    r.[Image] = PStr (u "tea.jpg") /\
    r.[Name] = PStr (u "X") /\
    t_value (serving page_name_and_heading marking) (PStr (u "tea.jpg")) = PStr (u "X") /\
    r.[Image] <> t_value (serving page_name_and_heading marking) (PStr (u "tea.jpg")).
Proof.
  eexists. split; [vm_compute; reflexivity|].
  repeat split. vm_compute. discriminate.
Qed.

(** C4 (amended). In the result of the handler, [image], [price] and
    [weight] are the extracted values and are never given to the
    translator; [name], [description], [brand] and [category] are each the
    value of [t] on the extracted value, and the provider is called with
    the non-empty ones of these four, in this order, and with nothing else.
    With a provider that raises on every call these four are the extracted
    values. *)
Theorem translation_routing (str_repr : str -> str) (w : World) (url html : str)
        (product : data) :
  fetch w url = Ok html ->
  parse_product str_repr (BeautifulSoup w html) = Ok product ->
  exists r,
    extract str_repr w url
    = ({| result_ := Some r; error := None |},
       filter truthy (map (get product) translated_keys)) /\
    r.[Image] = product.[Image] /\
    r.[Price] = product.[Price] /\
    r.[Weight] = product.[Weight] /\
    (forall k, In k translated_keys -> r.[k] = t_value w product.[k]) /\
    ((forall text, exists e, translate w text = Raise e) ->
     forall k, In k translated_keys -> r.[k] = product.[k]).
Proof.
  intros Hf Hp. unfold extract.
  rewrite (extract_body_ok str_repr w url html product Hf Hp).
  eexists. split; [reflexivity|].
  split; [reflexivity|]. split; [reflexivity|]. split; [reflexivity|]. split.
  - intros k Hk. translated_key Hk; reflexivity.
  - intros Hfail k Hk.
    pose proof (parse_product_texty str_repr _ _ k Hp Hk) as Ht.
    assert (Hv : t_value w product.[k] = product.[k]).
    { unfold t_value. destruct (truthy product.[k]) eqn:Htr.
      - destruct (Hfail product.[k]) as [e He]. rewrite He. reflexivity.
      - unfold texty in Ht. rewrite Htr in Ht. simpl in Ht.
        destruct product.[k] as [| | | | [|c s] | |]; try discriminate Ht.
        + reflexivity.
        + discriminate Htr. }
    rewrite <- Hv. translated_key Hk; reflexivity.
Qed.

Lemma translation_routing_witness :
  exists r,
    extract quoted (serving page_name_and_heading failing) (u "https://shop/tea")
    = ({| result_ := Some r; error := None |}, [PStr (u "Tea")]) /\
    r.[Image] = PStr (u "tea.jpg") /\
    r.[Price] = PStr [] /\
    r.[Weight] = PStr [] /\
    (forall k, In k translated_keys ->
               r.[k] = t_value (serving page_name_and_heading failing)
                         {| image := PStr (u "tea.jpg"); name := PStr (u "Tea");
                            price := PStr []; description := PStr [];
                            brand := PStr []; category := PStr [];
                            weight := PStr [] |}.[k]) /\
    ((forall text, exists e, failing text = Raise e) ->
     forall k, In k translated_keys ->
               r.[k] = {| image := PStr (u "tea.jpg"); name := PStr (u "Tea");
                          price := PStr []; description := PStr [];
                          brand := PStr []; category := PStr [];
                          weight := PStr [] |}.[k]).
Proof.
  exact (translation_routing quoted (serving page_name_and_heading failing)
           (u "https://shop/tea") []
           {| image := PStr (u "tea.jpg"); name := PStr (u "Tea");
              price := PStr []; description := PStr [];
              brand := PStr []; category := PStr [];
              weight := PStr [] |} eq_refl eq_refl).
Defined.

(** C8. The handler always gives the template a result or an error, never
    both and never neither.  When [fetch] raises an HTTP status error, the
    error is ["HTTP error: "] followed by the status code and there is no
    result; when [fetch] or [parse_product] raises anything else, the error
    is ["Unexpected error: "] followed by the text of the exception and
    there is no result; otherwise there is a result and no error. *)
Theorem extract_always_renders (str_repr : str -> str) (w : World) (url : str) :
  (result_ (fst (extract str_repr w url)) = None <->
   error (fst (extract str_repr w url)) <> None) /\
  (forall status msg,
      fetch w url = Raise (HTTPStatusError status msg) ->
      fst (extract str_repr w url)
      = {| result_ := None; error := Some (u "HTTP error: " ++ str_of_Z status) |} /\
      contains (str_of_Z status) (u "HTTP error: " ++ str_of_Z status)) /\
  (forall e,
      (forall status msg, e <> HTTPStatusError status msg) ->
      fetch w url = Raise e \/
      (exists html, fetch w url = Ok html /\
                    parse_product str_repr (BeautifulSoup w html) = Raise e) ->
      fst (extract str_repr w url)
      = {| result_ := None; error := Some (u "Unexpected error: " ++ exn_str e) |} /\
      contains (exn_str e) (u "Unexpected error: " ++ exn_str e)) /\
  (forall html product,
      fetch w url = Ok html ->
      parse_product str_repr (BeautifulSoup w html) = Ok product ->
      exists r, fst (extract str_repr w url) = {| result_ := Some r; error := None |}).
Proof.
  split; [|split; [|split]].
  - unfold extract.
    destruct (extract_body str_repr w url []) as [[r|[status msg|msg|msg|msg]] calls];
      simpl; split; congruence.
  - intros status msg Hf. unfold extract.
    rewrite (extract_body_fetch_raises str_repr w url _ Hf). split; [reflexivity|].
    exists (u "HTTP error: "), []. rewrite app_nil_r. reflexivity.
  - intros e He Hraise.
    assert (Hb : extract_body str_repr w url [] = (Raise e, [])).
    { destruct Hraise as [Hf|(html & Hf & Hp)].
      - apply extract_body_fetch_raises, Hf.
      - eapply extract_body_parse_raises; eauto. }
    unfold extract. rewrite Hb. split.
    + destruct e as [status msg|msg|msg|msg]; try reflexivity.
      contradiction (He status msg). reflexivity.
    + exists (u "Unexpected error: "), []. rewrite app_nil_r. reflexivity.
  - intros html product Hf Hp. unfold extract.
    rewrite (extract_body_ok str_repr w url html product Hf Hp).
    eexists. reflexivity.
Qed.

Lemma extract_always_renders_witness :
  (fst (extract quoted (refusing 404) (u "https://shop/gone"))
   = {| result_ := None; error := Some (u "HTTP error: " ++ str_of_Z 404) |} /\
   contains (str_of_Z 404) (u "HTTP error: " ++ str_of_Z 404)) /\
  (fst (extract quoted (serving page_property_string failing) (u "https://shop/tea"))
   = {| result_ := None;
        error := Some (u "Unexpected error: "
                         ++ exn_str (AttributeError
                                       (u "'str' object has no attribute 'get'"))) |} /\
   contains (exn_str (AttributeError (u "'str' object has no attribute 'get'")))
            (u "Unexpected error: "
               ++ exn_str (AttributeError (u "'str' object has no attribute 'get'")))) /\
  (exists r, fst (extract quoted (serving page_name_and_heading failing)
                    (u "https://shop/tea"))
             = {| result_ := Some r; error := None |}).
Proof.
  split; [|split].
  - apply (proj1 (proj2 (extract_always_renders quoted (refusing 404)
                           (u "https://shop/gone")))
             404%Z (u "Client error")).
    vm_compute. reflexivity.
  - apply (proj1 (proj2 (proj2 (extract_always_renders quoted
                                  (serving page_property_string failing)
                                  (u "https://shop/tea"))))
             (AttributeError (u "'str' object has no attribute 'get'"))).
    + intros status msg. discriminate.
    + right. exists []. split; vm_compute; reflexivity.
  - apply (proj2 (proj2 (proj2 (extract_always_renders quoted
                                  (serving page_name_and_heading failing)
                                  (u "https://shop/tea"))))
             [] {| image := PStr (u "tea.jpg"); name := PStr (u "Tea");
                   price := PStr []; description := PStr [];
                   brand := PStr []; category := PStr [];
                   weight := PStr [] |}).
    + vm_compute. reflexivity.
    + vm_compute. reflexivity.
Defined.

(** * Further properties *)

(** ** The whitespace post-processing (lines 137 to 141) *)

Lemma sub_ws_fixed (s : str) :
  forall b, spaced b s = true -> sub_ws b s = s.
Proof.
  induction s as [|c s IH]; intros b H; simpl in *; [reflexivity|].
  destruct (isspace c).
  - apply andb_true_iff in H as [H Hs]. apply andb_true_iff in H as [Hb Hc].
    apply N.eqb_eq in Hc. destruct b; [discriminate|].
    rewrite (IH true Hs). congruence.
  - rewrite (IH false H). reflexivity.
Qed.

Lemma normalized_spaced (s : str) :
  normalized s -> spaced false s = true.
Proof.
  intros (_ & Hlast & Hpair).
  assert (H : forall x l prev, s = l ++ x ->
              (prev = true -> forall c r, x = c :: r -> isspace c = false) ->
              spaced prev x = true).
  { intros x. induction x as [|c x IH]; intros l prev Hs Hprev; [reflexivity|].
    simpl. destruct (isspace c) eqn:Hc.
    - destruct prev.
      + rewrite (Hprev eq_refl c x eq_refl) in Hc. discriminate.
      + destruct x as [|b x].
        * rewrite (Hlast l c Hs) in Hc. discriminate.
        * destruct (Hpair l c b x Hs Hc) as [Hsp Hb]. subst c.
          simpl negb. rewrite N.eqb_refl. simpl andb.
          apply (IH (l ++ [SP]) true).
          -- rewrite <- app_assoc. exact Hs.
          -- intros _ c' r' Heq. injection Heq as <- _. exact Hb.
    - apply (IH (l ++ [c]) false).
      + rewrite <- app_assoc. exact Hs.
      + discriminate. }
  apply (H s [] false); [reflexivity | discriminate].
Qed.

Lemma lstrip_fixed (s : str) :
  (forall c r, s = c :: r -> isspace c = false) -> lstrip s = s.
Proof.
  destruct s as [|c s]; intros H; simpl; [reflexivity|].
  rewrite (H c s eq_refl). reflexivity.
Qed.

Lemma rstrip_fixed (s : str) :
  (forall r c, s = r ++ [c] -> isspace c = false) -> rstrip s = s.
Proof.
  intros H. unfold rstrip. rewrite lstrip_fixed; [apply rev_involutive|].
  intros c r Hr. apply (H (rev r) c).
  rewrite <- (rev_involutive s), Hr. reflexivity.
Qed.

Lemma squeeze_of_normalized (x : str) : normalized x -> squeeze x = x.
Proof.
  intros Hn. unfold squeeze, strip.
  rewrite (sub_ws_fixed x false (normalized_spaced x Hn)).
  destruct Hn as (Hhead & Hlast & _).
  rewrite (lstrip_fixed x Hhead). apply rstrip_fixed, Hlast.
Qed.

Lemma squeeze_value_idem (v : value) : squeeze_value (squeeze_value v) = squeeze_value v.
Proof.
  destruct v; try reflexivity. simpl. f_equal.
  apply squeeze_of_normalized, squeeze_normalized.
Qed.

(** X1. The strings that the post-processing leaves as they are are exactly
    the normalized ones; so squeezing twice is squeezing once. *)
Theorem squeeze_fixed_points (s : str) :
  (squeeze s = s <-> normalized s) /\ squeeze (squeeze s) = squeeze s.
Proof.
  split.
  - split; [|apply squeeze_of_normalized].
    intros H. rewrite <- H. apply squeeze_normalized.
  - apply squeeze_of_normalized, squeeze_normalized.
Qed.

(** X2. The record that [parse_product] returns is a fixed point of its own
    post-processing: collapsing and trimming again changes no field. *)
Theorem parse_product_squeezed (str_repr : str -> str) (soup : Soup) (r : data) :
  parse_product str_repr soup = Ok r -> squeeze_data r = r.
Proof.
  unfold parse_product. intros H.
  apply bind_ok in H as (d & _ & Hr). injection Hr as <-.
  unfold squeeze_data at 1. simpl.
  rewrite !squeeze_value_idem. reflexivity.
Qed.

Lemma parse_product_squeezed_witness :
  squeeze_data {| image := PStr []; name := PStr (u "Green Tea");
                  price := PStr []; description := PStr [];
                  brand := PStr []; category := PStr [];
                  weight := PStr [] |}
  = {| image := PStr []; name := PStr (u "Green Tea");
       price := PStr []; description := PStr [];
       brand := PStr []; category := PStr [];
       weight := PStr [] |}.
Proof.
  apply (parse_product_squeezed quoted Examples.page_spaced_name).
  vm_compute. reflexivity.
Defined.

Lemma filter_sub_ws (v : str) (b : bool) :
  filter nonspace (sub_ws b v) = filter nonspace v.
Proof.
  revert b; induction v as [|c v IH]; intros b; simpl; [reflexivity|].
  unfold nonspace at 2. destruct (isspace c) eqn:Hc; simpl.
  - destruct b; [apply IH|]. simpl. apply IH.
  - unfold nonspace at 1. rewrite Hc. simpl. f_equal. apply IH.
Qed.

Lemma filter_lstrip (s : str) : filter nonspace (lstrip s) = filter nonspace s.
Proof.
  induction s as [|c s IH]; simpl; [reflexivity|].
  unfold nonspace at 2. destruct (isspace c) eqn:Hc; simpl; [exact IH|].
  unfold nonspace at 1. rewrite Hc. reflexivity.
Qed.

Lemma filter_rstrip (s : str) : filter nonspace (rstrip s) = filter nonspace s.
Proof.
  unfold rstrip. rewrite filter_rev, filter_lstrip, <- filter_rev, rev_involutive.
  reflexivity.
Qed.

Lemma filter_squeeze (v : str) : filter nonspace (squeeze v) = filter nonspace v.
Proof.
  unfold squeeze, strip. rewrite filter_rstrip, filter_lstrip. apply filter_sub_ws.
Qed.

(** X3. The post-processing removes and replaces white space only: the
    characters that are not white space are all kept, in their order, and
    every character of the outcome is one of them or a space. *)
Theorem squeeze_keeps_text (v : str) :
  filter nonspace (squeeze v) = filter nonspace v /\
  (forall c, In c (squeeze v) -> (In c v /\ isspace c = false) \/ c = SP).
Proof.
  split; [apply filter_squeeze|].
  intros c Hc. destruct (isspace c) eqn:Hs.
  - right. destruct (squeeze_normalized v) as (_ & Hlast & Hpair).
    apply in_split in Hc as (l & r & Hc).
    destruct r as [|b r].
    + rewrite (Hlast l c Hc) in Hs. discriminate.
    + apply (Hpair l c b r Hc Hs).
  - left. split; [|reflexivity].
    assert (Hin : In c (filter nonspace (squeeze v))).
    { apply filter_In. split; [exact Hc|]. unfold nonspace. rewrite Hs. reflexivity. }
    rewrite filter_squeeze in Hin. apply filter_In in Hin. apply Hin.
Qed.

(** X4. A field comes out empty exactly when it held nothing but white
    space. *)
Theorem squeeze_empty (v : str) :
  squeeze v = [] <-> forallb isspace v = true.
Proof.
  split.
  - intros H. pose proof (filter_squeeze v) as Hk. rewrite H in Hk. simpl in Hk.
    apply forallb_forall. intros c Hc.
    destruct (isspace c) eqn:Hs; [reflexivity|]. exfalso.
    assert (Hin : In c (filter nonspace v)).
    { apply filter_In. split; [exact Hc|]. unfold nonspace. rewrite Hs. reflexivity. }
    rewrite <- Hk in Hin. exact Hin.
  - intros H. rewrite forallb_forall in H.
    destruct (squeeze v) as [|c r] eqn:Hsq; [reflexivity|]. exfalso.
    destruct (squeeze_normalized v) as (Hhead & _). rewrite Hsq in Hhead.
    specialize (Hhead c r eq_refl).
    assert (Hin : In c (filter nonspace (squeeze v))).
    { rewrite Hsq. simpl. unfold nonspace at 1. rewrite Hhead. left. reflexivity. }
    rewrite filter_squeeze in Hin. apply filter_In in Hin as [Hin _].
    rewrite (H c Hin) in Hhead. discriminate.
Qed.

(** ** Phase 1 (lines 49 to 90) *)

Section Phase1Extras.

Variable str_repr : str -> str.

Lemma scan_scripts_filter (tags : list script) (d : data) :
  scan_scripts str_repr (filter is_parsed tags) d = scan_scripts str_repr tags d.
Proof.
  revert d; induction tags as [|[|js] tags IH]; intros d; simpl.
  - reflexivity.
  - apply IH.
  - destruct (scan_candidates str_repr (candidates_of js) d); simpl; [apply IH | reflexivity].
Qed.

(** X5. Script tags whose text is not JSON are passed over without a
    trace: the page gives the same outcome as the page without them. *)
Theorem unparsable_scripts_ignored (soup : Soup) :
  parse_product str_repr (with_scripts (filter is_parsed (ld_json soup)) soup)
  = parse_product str_repr soup.
Proof.
  unfold parse_product, structured. cbn [ld_json with_scripts].
  rewrite scan_scripts_filter.
  destruct (scan_scripts str_repr (ld_json soup) empty_data); reflexivity.
Qed.

(** X6. In one script tag, the Product that is extracted is the first one
    in the array, whatever stands before it that is not a Product and
    whatever stands after it. *)
Theorem first_product_of_block (before after : list value)
        (kvs : list (str * value)) (d : data) :
  (forall obj, In obj before -> ~ declared_product obj) ->
  declared_product (PDict kvs) ->
  scan_candidates str_repr (before ++ PDict kvs :: after) d
  = extract_object str_repr kvs d.
Proof.
  intros Hb Hp. induction before as [|obj before IH]; simpl app.
  - apply declared_product_dec in Hp. cbn [scan_candidates]. rewrite Hp. reflexivity.
  - rewrite scan_candidates_skip by (apply Hb; left; reflexivity).
    apply IH. intros o Ho. apply Hb. right. exact Ho.
Qed.

Lemma set_get_same (k : key) (d : data) : d.[k := d.[k]] = d.
Proof. destruct d, k; reflexivity. Qed.

(** X7. [parse_product] reads nine members of a Product object and no
    other: two objects that agree on these give the same outcome. *)
Theorem other_members_ignored (obj obj' : list (str * value)) (d : data) :
  (forall m, In m read_members -> dict_get obj m = dict_get obj' m) ->
  extract_object str_repr obj d = extract_object str_repr obj' d.
Proof.
  intros H.
  unfold extract_object, extract_name, extract_image, extract_brand, extract_price,
    first_offer, extract_description, extract_category, extract_weight.
  rewrite !H by (unfold read_members; simpl; tauto).
  reflexivity.
Qed.

(** X8. A Product object that has none of these members leaves every field
    of the record as it was. *)
Theorem bare_object_changes_nothing (obj : list (str * value)) (d : data) :
  (forall m, In m read_members -> dict_get obj m = PNone) ->
  extract_object str_repr obj d = Ok d.
Proof.
  intros H.
  unfold extract_object, extract_name, extract_image, extract_brand, extract_price,
    first_offer, extract_description, extract_category, extract_weight.
  rewrite !H by (unfold read_members; simpl; tauto).
  unfold py_or. cbn [truthy dict_get].
  rewrite !set_get_same. reflexivity.
Qed.

Lemma str_items_ok (l : list value) :
  forall i, (exists items, str_items i l = Ok items) <-> forallb is_str l = true.
Proof.
  induction l as [|c l IH]; intros i; simpl.
  - split; eauto.
  - destruct c as [| | | | s | |]; simpl;
      try (split; [intros [items H]; discriminate H | discriminate]).
    rewrite <- (IH (i + 1)%Z). split.
    + intros [items H]. apply bind_ok in H as (items' & H & _). eauto.
    + intros [items H]. rewrite H. simpl. eauto.
Qed.

Lemma scan_properties_ok (addp : list value) :
  forall d, (exists d', scan_properties addp d = Ok d') <->
            forallb safe_property addp = true.
Proof.
  induction addp as [|p addp IH]; intros d; simpl.
  - split; eauto.
  - destruct p as [| | | | | |pd];
      try (split; [intros [d' H]; discriminate H | discriminate]).
    cbn [safe_property].
    destruct (py_or (dict_get pd (u "name")) (PStr [])) as [| | | | s | |];
      try (split; [intros [d' H]; discriminate H | discriminate]).
    cbn [is_str andb].
    destruct (str_in (u "ağırlık") (str_lower s) || str_in (u "weight") (str_lower s));
      apply IH.
Qed.

Lemma str_items_raises (l : list value) :
  forall i e, str_items i l = Raise e -> shape_error e.
Proof.
  induction l as [|c l IH]; intros i e H; simpl in H; [discriminate|].
  destruct c as [| | | | s | |];
    try (injection H as <-; right; eexists; reflexivity).
  destruct (str_items (i + 1) l) as [items|e'] eqn:Hi; simpl in H; [discriminate|].
  injection H as <-. eapply IH, Hi.
Qed.

Lemma scan_properties_raises (addp : list value) :
  forall d e, scan_properties addp d = Raise e -> shape_error e.
Proof.
  induction addp as [|p addp IH]; intros d e H; simpl in H; [discriminate|].
  destruct p as [| | | | | |pd];
    try (injection H as <-; left; eexists; reflexivity).
  destruct (py_or (dict_get pd (u "name")) (PStr [])) as [| | | | s | |];
    try (injection H as <-; left; eexists; reflexivity).
  destruct (str_in (u "ağırlık") (str_lower s) || str_in (u "weight") (str_lower s));
    eapply IH, H.
Qed.

Lemma extract_object_raises (obj : list (str * value)) (d : data) (e : exn) :
  extract_object str_repr obj d = Raise e -> shape_error e.
Proof.
  unfold extract_object, extract_category, extract_weight.
  set (d0 := extract_description obj _). intros H.
  destruct (py_or (dict_get obj (u "category")) (dict_get obj (u "categoryName")))
    as [| | | | s |l|]; simpl in H;
    try (destruct (py_or (dict_get obj (u "additionalProperty"))
                         (dict_get obj (u "additionalProperties"))) as [| | | | |l'|];
         try discriminate H; eapply scan_properties_raises, H).
  destruct (str_items 0 l) as [items|e'] eqn:Hi; simpl in H.
  - destruct (py_or (dict_get obj (u "additionalProperty"))
                    (dict_get obj (u "additionalProperties"))) as [| | | | |l'|];
      try discriminate H; eapply scan_properties_raises, H.
  - injection H as <-. eapply str_items_raises, Hi.
Qed.

Lemma extract_object_safe (obj : list (str * value)) (d : data) :
  (exists d', extract_object str_repr obj d = Ok d') <-> safe_object obj = true.
Proof.
  unfold extract_object, safe_object, extract_category, extract_weight.
  set (d0 := extract_description obj _).
  rewrite andb_true_iff. split.
  - intros [d' H]. apply bind_ok in H as (d1 & Hcat & Hw). split.
    + destruct (py_or (dict_get obj (u "category")) (dict_get obj (u "categoryName")))
        as [| | | | s |l|]; try reflexivity.
      apply bind_ok in Hcat as (items & Hi & _).
      apply (str_items_ok l 0%Z). eauto.
    + destruct (py_or (dict_get obj (u "additionalProperty"))
                      (dict_get obj (u "additionalProperties"))) as [| | | | |l|];
        try reflexivity.
      apply (scan_properties_ok l d1). eauto.
  - intros [Hcat Hw].
    assert (Hc : exists d1,
               match py_or (dict_get obj (u "category")) (dict_get obj (u "categoryName")) with
               | PList l => items <- str_items 0 l ;;
                            Ok d0.[Category := PStr (join (u " / ") items)]
               | PStr _ => Ok d0.[Category := py_or (dict_get obj (u "category"))
                                                   (dict_get obj (u "categoryName"))]
               | _ => Ok d0
               end = Ok d1).
    { destruct (py_or (dict_get obj (u "category")) (dict_get obj (u "categoryName")))
        as [| | | | s |l|]; eauto.
      apply (str_items_ok l 0%Z) in Hcat as [items Hi]. rewrite Hi. simpl. eauto. }
    destruct Hc as [d1 Hc]. rewrite Hc. simpl.
    destruct (py_or (dict_get obj (u "additionalProperty"))
                    (dict_get obj (u "additionalProperties"))) as [| | | | |l|]; eauto.
    apply (scan_properties_ok l d1), Hw.
Qed.

(** X9. A Product object is extracted without an exception exactly when
    its shape is safe: the entries of a category list are strings and the
    entries of a property list are dicts without a non-string name.  The
    record so far has no part in it, and an exception is an AttributeError
    or a TypeError. *)
Theorem extract_object_ok (obj : list (str * value)) (d : data) :
  ((exists d', extract_object str_repr obj d = Ok d') <-> safe_object obj = true) /\
  (forall e, extract_object str_repr obj d = Raise e -> shape_error e).
Proof.
  split; [apply extract_object_safe|].
  intros e. apply extract_object_raises.
Qed.

Lemma scan_candidates_safe (candidates : list value) (d : data) :
  (forall kvs, In (PDict kvs) candidates -> declared_product (PDict kvs) ->
               safe_object kvs = true) ->
  exists d', scan_candidates str_repr candidates d = Ok d'.
Proof.
  induction candidates as [|obj rest IH]; intros H; simpl.
  - eauto.
  - assert (Hrest : exists d', scan_candidates str_repr rest d = Ok d').
    { apply IH. intros kvs Hin. apply H. right. exact Hin. }
    destruct obj as [| | | | | |kvs]; try exact Hrest.
    destruct (in_strs (dict_get kvs (u "@type")) [u "Product"; u "product"]) eqn:Ht;
      [|exact Hrest].
    apply extract_object_safe, H; [left; reflexivity | apply declared_product_dec, Ht].
Qed.

Lemma scan_scripts_safe (tags : list script) :
  (forall js kvs, In (Parsed js) tags -> In (PDict kvs) (candidates_of js) ->
                  declared_product (PDict kvs) -> safe_object kvs = true) ->
  forall d, exists d', scan_scripts str_repr tags d = Ok d'.
Proof.
  induction tags as [|[|js] tags IH]; intros H d; simpl.
  - eauto.
  - apply IH. intros js kvs Hin. apply H. right. exact Hin.
  - destruct (scan_candidates_safe (candidates_of js) d) as [d1 H1].
    { intros kvs Hin. apply (H js); [left; reflexivity | exact Hin]. }
    rewrite H1. simpl. apply IH. intros js' kvs Hin. apply H. right. exact Hin.
Qed.

(** X10. On a page whose Product objects all have a safe shape,
    [parse_product] returns a record. *)
Theorem parse_product_returns (soup : Soup) :
  (forall js kvs, In (Parsed js) (ld_json soup) -> In (PDict kvs) (candidates_of js) ->
                  declared_product (PDict kvs) -> safe_object kvs = true) ->
  exists r, parse_product str_repr soup = Ok r.
Proof.
  intros H. unfold parse_product, structured.
  destruct (scan_scripts_safe (ld_json soup) H empty_data) as [d Hd].
  rewrite Hd. simpl. eauto.
Qed.

Lemma scan_properties_app (l1 l2 : list value) :
  forall d, scan_properties (l1 ++ l2) d
            = (d' <- scan_properties l1 d ;; scan_properties l2 d').
Proof.
  induction l1 as [|p l1 IH]; intros d; simpl; [reflexivity|].
  destruct p as [| | | | | |pd]; try reflexivity.
  destruct (py_or (dict_get pd (u "name")) (PStr [])) as [| | | | s | |];
    try reflexivity.
  destruct (str_in (u "ağırlık") (str_lower s) || str_in (u "weight") (str_lower s));
    apply IH.
Qed.

Lemma scan_properties_no_weight (addp : list value) (d : data) :
  forallb safe_property addp = true ->
  (forall pd, In (PDict pd) addp -> names_weight pd = false) ->
  scan_properties addp d = Ok d.
Proof.
  induction addp as [|p addp IH]; intros Hs Hn; [reflexivity|].
  simpl in Hs. apply andb_true_iff in Hs as [Hp Hs].
  destruct p as [| | | | | |pd]; try discriminate Hp.
  pose proof (Hn pd (or_introl eq_refl)) as Hw.
  unfold names_weight in Hw. cbn [safe_property] in Hp. cbn [scan_properties].
  destruct (py_or (dict_get pd (u "name")) (PStr [])) as [| | | | s | |];
    try discriminate Hp.
  rewrite Hw. apply IH; [exact Hs|].
  intros pd' Hin. apply Hn. right. exact Hin.
Qed.

(** X11. The loop over the properties has no [break]: of the entries whose
    name speaks of a weight, the last one gives the weight, also when it
    has neither a value nor a unit code and so gives the empty string; the
    entries after it that do not speak of a weight change nothing. *)
Theorem last_weight_property_wins (before after : list value)
        (pd : list (str * value)) (d d' : data) :
  scan_properties before d = Ok d' ->
  names_weight pd = true ->
  forallb safe_property after = true ->
  (forall pd', In (PDict pd') after -> names_weight pd' = false) ->
  scan_properties (before ++ PDict pd :: after) d
  = Ok d'.[Weight := property_weight pd].
Proof.
  intros H Hn Hs Ha. rewrite scan_properties_app, H. simpl bind.
  unfold names_weight in Hn. cbn [scan_properties].
  destruct (py_or (dict_get pd (u "name")) (PStr [])) as [| | | | s | |];
    try discriminate Hn.
  rewrite Hn. apply scan_properties_no_weight; assumption.
Qed.

Lemma shape_error_only (soup : Soup) (e : exn) :
  parse_product str_repr soup = Raise e -> shape_error e.
Proof.
  unfold parse_product, structured.
  generalize empty_data. induction (ld_json soup) as [|[|js] tags IH]; intros d H;
    simpl in H.
  - discriminate.
  - apply (IH d H).
  - destruct (scan_candidates str_repr (candidates_of js) d) as [d1|e1] eqn:Hc;
      simpl in H.
    + apply (IH d1 H).
    + injection H as <-. clear IH.
      induction (candidates_of js) as [|obj rest IHc]; simpl in Hc; [discriminate|].
      destruct obj as [| | | | | |kvs]; auto.
      destruct (in_strs (dict_get kvs (u "@type")) [u "Product"; u "product"]); auto.
      eapply extract_object_raises, Hc.
Qed.

End Phase1Extras.

Import MoreExamples.

Lemma first_product_of_block_witness :
  scan_candidates quoted ([PStr (u "x"); PInt 3] ++ PDict safe_product :: [PDict bare_product])
                  empty_data
  = extract_object quoted safe_product empty_data.
Proof.
  apply first_product_of_block.
  - intros obj [<-|[<-|[]]] (kvs & Heq & _); discriminate Heq.
  - exists safe_product. split; [reflexivity|]. left. vm_compute. reflexivity.
Defined.

Lemma other_members_ignored_witness :
  extract_object quoted bare_product filled
  = extract_object quoted [(u "@type", PStr (u "Product"))] filled.
Proof.
  apply other_members_ignored.
  intros m Hm. unfold read_members in Hm.
  repeat (destruct Hm as [<-|Hm]; [vm_compute; reflexivity|]). destruct Hm.
Defined.

Lemma bare_object_changes_nothing_witness :
  extract_object quoted bare_product filled = Ok filled.
Proof.
  apply bare_object_changes_nothing.
  intros m Hm. unfold read_members in Hm.
  repeat (destruct Hm as [<-|Hm]; [vm_compute; reflexivity|]). destruct Hm.
Defined.

Lemma parse_product_returns_witness :
  exists r, parse_product quoted page_safe_product = Ok r.
Proof.
  apply parse_product_returns.
  intros js kvs [Hjs|[Hjs|[]]] Hin _; [discriminate Hjs|].
  injection Hjs as <-. simpl in Hin.
  destruct Hin as [Hin|[Hin|[]]]; [discriminate Hin|].
  injection Hin as <-. vm_compute. reflexivity.
Defined.

Lemma last_weight_property_wins_witness :
  scan_properties ([PDict gross_weight] ++ PDict net_weight :: [PDict colour])
                  empty_data
  = Ok (set Weight (PStr (u "400 g")) empty_data).[Weight := property_weight net_weight].
Proof.
  apply last_weight_property_wins.
  - vm_compute. reflexivity.
  - vm_compute. reflexivity.
  - vm_compute. reflexivity.
  - intros pd' [Hin|[]]. injection Hin as <-. vm_compute. reflexivity.
Defined.

(** ** Phase 2 (lines 92 to 135) *)

(** X12. On a page without a Product object every field is what its
    fallback rule finds, squeezed, and the empty string when the rule finds
    nothing. *)
Theorem fallback_values (str_repr : str -> str) (soup : Soup) :
  (forall js obj, In (Parsed js) (ld_json soup) -> In obj (candidates_of js) ->
                  ~ declared_product obj) ->
  exists r, parse_product str_repr soup = Ok r /\
            forall k, r.[k] = match fallback soup k with
                              | Some v => squeeze_value v
                              | None => PStr []
                              end.
Proof.
  intros H. unfold parse_product, structured.
  rewrite (scan_scripts_none str_repr _ empty_data H). simpl bind.
  eexists. split; [reflexivity|]. intros k.
  rewrite get_squeeze_data, fallbacks_get.
  replace (truthy empty_data.[k]) with false by (destruct k; reflexivity).
  destruct (fallback soup k); [reflexivity | destruct k; reflexivity].
Qed.

Lemma fallback_values_witness :
  exists r, parse_product quoted page_heading_only = Ok r /\
            r.[Name] = PStr (u "Green Tea") /\
            r.[Category] = PStr (u "Home / Tea") /\
            r.[Price] = PStr [].
Proof.
  destruct (fallback_values quoted page_heading_only) as (r & Hr & Hk).
  - intros js obj [Hjs|[Hjs|[]]] Hin; [discriminate Hjs|].
    injection Hjs as <-. destruct Hin as [<-|[]].
    intros (kvs & Heq & _). discriminate Heq.
  - exists r. split; [exact Hr|].
    rewrite !Hk. repeat split; vm_compute; reflexivity.
Defined.

(** ** The handler (lines 148 to 171) *)

(** X13. When the page was fetched, an error of the handler can only come
    from the shape of the structured data: it is ["Unexpected error: "]
    followed by the text of an AttributeError or a TypeError that
    [parse_product] raised. *)
Theorem parse_failure_reported (str_repr : str -> str) (w : World) (url html msg : str) :
  fetch w url = Ok html ->
  error (fst (extract str_repr w url)) = Some msg ->
  exists e, parse_product str_repr (BeautifulSoup w html) = Raise e /\
            shape_error e /\
            msg = u "Unexpected error: " ++ exn_str e.
Proof.
  intros Hf Herr. unfold extract in Herr.
  destruct (parse_product str_repr (BeautifulSoup w html)) as [product|e] eqn:Hp.
  - rewrite (extract_body_ok str_repr w url html product Hf Hp) in Herr.
    discriminate Herr.
  - rewrite (extract_body_parse_raises str_repr w url html e Hf Hp) in Herr.
    exists e. split; [reflexivity|].
    pose proof (shape_error_only str_repr _ e Hp) as Hs.
    split; [exact Hs|].
    destruct Hs as [[m ->]|[m ->]];
      apply (f_equal (fun o => match o with Some x => x | None => msg end)) in Herr;
      symmetry; exact Herr.
Qed.

Lemma parse_failure_reported_witness :
  exists e, parse_product quoted
              (BeautifulSoup (Examples.serving Examples.page_property_string Examples.failing) [])
            = Raise e /\
            shape_error e /\
            u "Unexpected error: 'str' object has no attribute 'get'"
            = u "Unexpected error: " ++ exn_str e.
Proof.
  apply (parse_failure_reported quoted
           (Examples.serving Examples.page_property_string Examples.failing)
           (u "https://shop/tea") []).
  - vm_compute. reflexivity.
  - vm_compute. reflexivity.
Defined.

(** X14. The handler calls the translation provider at most four times,
    never with an empty text, and not at all when it reports an error. *)
Theorem provider_calls (str_repr : str -> str) (w : World) (url : str) :
  (List.length (snd (extract str_repr w url)) <= 4)%nat /\
  (forall text, In text (snd (extract str_repr w url)) -> truthy text = true) /\
  (error (fst (extract str_repr w url)) <> None -> snd (extract str_repr w url) = []).
Proof.
  unfold extract.
  destruct (fetch w url) as [html|e] eqn:Hf.
  - destruct (parse_product str_repr (BeautifulSoup w html)) as [product|e] eqn:Hp.
    + rewrite (extract_body_ok str_repr w url html product Hf Hp). cbn [fst snd error].
      split; [|split].
      * etransitivity; [apply filter_length_le|]. rewrite length_map. reflexivity.
      * intros text Hin. apply filter_In in Hin. apply Hin.
      * intros H. contradiction H. reflexivity.
    + rewrite (extract_body_parse_raises str_repr w url html e Hf Hp).
      destruct e; simpl; repeat split; try lia; try contradiction; reflexivity.
  - rewrite (extract_body_fetch_raises str_repr w url e Hf).
    destruct e; simpl; repeat split; try lia; try contradiction; reflexivity.
Qed.

Lemma provider_calls_witness :
  snd (extract quoted (Examples.refusing 404) (u "https://shop/gone")) = [].
Proof.
  apply (proj2 (proj2 (provider_calls quoted (Examples.refusing 404) (u "https://shop/gone")))).
  vm_compute. discriminate.
Defined.

(** ** [fetch] (lines 26 to 34) *)

(** X17. [fetch] gives the text of a response only when [raise_for_status]
    passes.  A response with an error status is never parsed, whatever its
    body: the handler reports the status and calls the provider not at
    all. *)
Theorem error_status_not_parsed (str_repr : str -> str) (w : World) (url : str) :
  (forall html,
      fetch w url = Ok html <->
      exists resp, client_get w url = Ok resp /\
                   raise_for_status resp = Ok tt /\ text resp = html) /\
  (forall resp status msg,
      client_get w url = Ok resp ->
      raise_for_status resp = Raise (HTTPStatusError status msg) ->
      extract str_repr w url
      = ({| result_ := None; error := Some (u "HTTP error: " ++ str_of_Z status) |}, [])).
Proof.
  split.
  - intros html. unfold fetch. split.
    + intros H. apply bind_ok in H as (resp & Hc & H).
      apply bind_ok in H as ([] & Hr & H). injection H as <-. eauto.
    + intros (resp & Hc & Hr & <-). rewrite Hc. simpl. rewrite Hr. reflexivity.
  - intros resp status msg Hc Hr. unfold extract.
    rewrite (extract_body_fetch_raises str_repr w url (HTTPStatusError status msg)).
    + reflexivity.
    + unfold fetch. rewrite Hc. simpl. rewrite Hr. reflexivity.
Qed.

Lemma error_status_not_parsed_witness :
  extract quoted (refusing_with_page 503 Examples.page_name_and_heading)
          (u "https://shop/tea")
  = ({| result_ := None; error := Some (u "HTTP error: " ++ str_of_Z 503) |}, []).
Proof.
  apply (proj2 (error_status_not_parsed quoted
                  (refusing_with_page 503 Examples.page_name_and_heading)
                  (u "https://shop/tea"))
           {| raise_for_status := Raise (HTTPStatusError 503 (u "Client error"));
              text := u "<h1>Not found</h1>" |} 503%Z (u "Client error")).
  - reflexivity.
  - reflexivity.
Defined.

(** ** The price (lines 70 to 76) *)

Lemma lstrip_app_space (p : str) :
  lstrip (p ++ [SP]) = match lstrip p with [] => [] | x => x ++ [SP] end.
Proof.
  induction p as [|c p IH]; simpl; [reflexivity|].
  destruct (isspace c); [exact IH | reflexivity].
Qed.

Lemma rstrip_app_space (x : str) : rstrip (x ++ [SP]) = rstrip x.
Proof. unfold rstrip. rewrite rev_app_distr. reflexivity. Qed.

Lemma strip_app_space (p : str) : strip (p ++ [SP]) = strip p.
Proof.
  unfold strip. rewrite lstrip_app_space.
  destruct (lstrip p) as [|c x]; [reflexivity|]. apply rstrip_app_space.
Qed.

(** X18. An offer with a price that is a string and without a currency
    gives the price alone, trimmed: the space that the f-string puts
    before the missing currency does not stay. *)
Theorem price_without_currency (str_repr : str -> str) (obj offers : list (str * value))
        (p : str) (d : data) :
  first_offer obj = PDict offers ->
  dict_get offers (u "price") = PStr p ->
  p <> [] ->
  truthy (dict_get offers (u "priceCurrency")) = false ->
  (extract_price str_repr obj d).[Price] = PStr (strip p).
Proof.
  intros Ho Hp Hne Hc. unfold extract_price. rewrite Ho, Hp, get_set_same.
  destruct p as [|c p]; [contradiction Hne; reflexivity|].
  unfold py_or. cbn [truthy]. rewrite Hc. cbn [py_format].
  change (u " " ++ []) with [SP]. rewrite strip_app_space. reflexivity.
Qed.

Lemma price_without_currency_witness :
  (extract_price quoted offer_without_currency empty_data).[Price] = PStr (strip (u " 12,50 ")).
Proof.
  apply (price_without_currency quoted offer_without_currency
           [(u "price", PStr (u " 12,50 "))]).
  - vm_compute. reflexivity.
  - vm_compute. reflexivity.
  - vm_compute. discriminate.
  - vm_compute. reflexivity.
Defined.

Lemma extract_object_ok_witness :
  shape_error (AttributeError (u "'str' object has no attribute 'get'")).
Proof.
  apply (proj2 (extract_object_ok quoted product_with_text_property empty_data)).
  vm_compute. reflexivity.
Defined.

Lemma squeeze_keeps_text_witness :
  (In 98 (u " a   b ") /\ isspace 98 = false) \/ 98 = SP.
Proof.
  apply (proj2 (squeeze_keeps_text (u " a   b "))).
  vm_compute. auto.
Defined.

(** ** The weight in the text of the page (lines 127 to 135) *)

Section MatcherComplete.

Context {A : Type}.

Lemma star_denotes (p : char -> bool) (s : str) :
  forall (pos : nat) (k : nat -> str -> option A) (a : A),
    Re.star p pos s k = Some a ->
    exists q s', s = q ++ s' /\ forallb p q = true /\
                 k (pos + List.length q)%nat s' = Some a.
Proof.
  induction s as [|c s IH]; intros pos k a H; simpl in H.
  - exists [], []. simpl. rewrite Nat.add_0_r. auto.
  - destruct (p c) eqn:Hc.
    + destruct (Re.star p (S pos) s k) as [a0|] eqn:Hs.
      * injection H as ->. apply IH in Hs as (q & s' & -> & Hq & Hk).
        exists (c :: q), s'. simpl. rewrite Hc, Hq, Nat.add_succ_r. auto.
      * exists [], (c :: s). simpl. rewrite Nat.add_0_r. auto.
    + exists [], (c :: s). simpl. rewrite Nat.add_0_r. auto.
Qed.

(** What the matcher consumes is a text of the pattern. *)
Lemma run_denotes (r : Re.regex) :
  forall (pos : nat) (s : str) (g : option Re.span)
         (k : nat -> str -> option Re.span -> option A) (a : A),
    Re.run r pos s g k = Some a ->
    exists q s' g',
      s = q ++ s' /\ denotes r q /\ k (pos + List.length q)%nat s' g' = Some a.
Proof.
  induction r as [|c|p|r1 IH1 r2 IH2|r1 IH1 r2 IH2|r1 IH1|p|r1 IH1];
    intros pos s g k a H; simpl in H.
  - exists [], s, g. simpl. rewrite Nat.add_0_r. auto.
  - destruct s as [|ch s]; [discriminate|].
    destruct (Re.lit_match c ch) eqn:Hc; [|discriminate].
    exists [ch], s, g. simpl. rewrite Nat.add_1_r. eauto.
  - destruct s as [|ch s]; [discriminate|].
    destruct (p ch) eqn:Hc; [|discriminate].
    exists [ch], s, g. simpl. rewrite Nat.add_1_r. eauto.
  - apply IH1 in H as (q1 & s1 & g1 & -> & Hq1 & H).
    apply IH2 in H as (q2 & s2 & g2 & -> & Hq2 & H).
    exists (q1 ++ q2), s2, g2. rewrite <- app_assoc, length_app, Nat.add_assoc.
    split; [reflexivity|]. split; [|exact H]. simpl. eauto.
  - destruct (Re.run r1 pos s g k) as [a0|] eqn:H1.
    + injection H as ->. apply IH1 in H1 as (q & s' & g' & -> & Hq & H).
      exists q, s', g'. simpl. auto.
    + apply IH2 in H as (q & s' & g' & -> & Hq & H).
      exists q, s', g'. simpl. auto.
  - destruct (Re.run r1 pos s g k) as [a0|] eqn:H1.
    + injection H as ->. apply IH1 in H1 as (q & s' & g' & -> & Hq & H).
      exists q, s', g'. simpl. auto.
    + exists [], s, g. simpl. rewrite Nat.add_0_r. auto.
  - destruct s as [|ch s]; [discriminate|].
    destruct (p ch) eqn:Hc; [|discriminate].
    apply star_denotes in H as (q & s' & -> & Hq & H).
    exists (ch :: q), s', g. simpl. rewrite Hc, Hq, Nat.add_succ_r.
    split; [reflexivity|]. split; [|exact H]. split; [discriminate | reflexivity].
  - apply IH1 in H as (q & s' & g' & -> & Hq & H).
    exists q, s', (Some (pos, (pos + List.length q)%nat)). auto.
Qed.

(** The span of a group is the text that its pattern consumed. *)
Lemma run_group_denotes (r : Re.regex) (pos : nat) (s : str) (g : option Re.span)
      (k : nat -> str -> option Re.span -> option A) (a : A) :
  Re.run (Re.Group r) pos s g k = Some a ->
  exists q s',
    s = q ++ s' /\ denotes r q /\
    k (pos + List.length q)%nat s' (Some (pos, (pos + List.length q)%nat)) = Some a.
Proof.
  intros H. simpl in H.
  apply run_denotes in H as (q & s' & g' & -> & Hq & H). eauto.
Qed.

Lemma star_complete (p : char -> bool) (s : str) :
  forall (pos : nat) (k : nat -> str -> option A),
    Re.star p pos s k = None ->
    forall q s', s = q ++ s' -> forallb p q = true ->
                 k (pos + List.length q)%nat s' = None.
Proof.
  induction s as [|c s IH]; intros pos k H q s' Hs Hq; simpl in H.
  - destruct q; [|discriminate Hs]. simpl in Hs. subst s'.
    simpl. rewrite Nat.add_0_r. exact H.
  - destruct q as [|ch q]; simpl in Hs.
    + subst s'. simpl. rewrite Nat.add_0_r.
      destruct (p c); [|exact H].
      destruct (Re.star p (S pos) s k); [discriminate | exact H].
    + injection Hs as <- ->. simpl in Hq. apply andb_true_iff in Hq as [Hc Hq].
      rewrite Hc in H.
      destruct (Re.star p (S pos) (q ++ s') k) eqn:Hstar; [discriminate|].
      simpl. rewrite Nat.add_succ_r. apply (IH (S pos) k Hstar q s' eq_refl Hq).
Qed.

(** When the matcher gives up, no text of the pattern at the head of [s]
    could have led the continuation to a match. *)
Lemma run_complete (r : Re.regex) :
  forall (pos : nat) (s : str) (g : option Re.span)
         (k : nat -> str -> option Re.span -> option A),
    Re.run r pos s g k = None ->
    forall q s', s = q ++ s' -> denotes r q ->
                 exists g', k (pos + List.length q)%nat s' g' = None.
Proof.
  induction r as [|c|p|r1 IH1 r2 IH2|r1 IH1 r2 IH2|r1 IH1|p|r1 IH1];
    intros pos s g k H q s' Hs Hq; simpl in H, Hq.
  - subst q. simpl in Hs. subst s'. simpl. rewrite Nat.add_0_r. eauto.
  - destruct Hq as (ch & -> & Hc). simpl in Hs. subst s.
    rewrite Hc in H. simpl. rewrite Nat.add_1_r. eauto.
  - destruct Hq as (ch & -> & Hc). simpl in Hs. subst s.
    rewrite Hc in H. simpl. rewrite Nat.add_1_r. eauto.
  - destruct Hq as (q1 & q2 & -> & Hq1 & Hq2).
    rewrite <- app_assoc in Hs.
    destruct (IH1 _ _ _ _ H q1 (q2 ++ s') Hs Hq1) as [g1 H1].
    destruct (IH2 _ _ _ _ H1 q2 s' eq_refl Hq2) as [g2 H2].
    exists g2. rewrite length_app, Nat.add_assoc. exact H2.
  - destruct (Re.run r1 pos s g k) eqn:H1; [discriminate|].
    destruct Hq as [Hq|Hq]; [eapply IH1 | eapply IH2]; eauto.
  - destruct (Re.run r1 pos s g k) eqn:H1; [discriminate|].
    destruct Hq as [->|Hq].
    + simpl in Hs. subst s'. simpl. rewrite Nat.add_0_r. eauto.
    + eapply IH1; eauto.
  - destruct Hq as [Hne Hq]. destruct q as [|ch q]; [contradiction Hne; reflexivity|].
    simpl in Hs. subst s. simpl in Hq. apply andb_true_iff in Hq as [Hc Hq].
    rewrite Hc in H. exists g. simpl. rewrite Nat.add_succ_r.
    apply (star_complete p _ (S pos) _ H q s' eq_refl Hq).
  - destruct (IH1 _ _ _ _ H q s' Hs Hq) as [g' H']. eauto.
Qed.

End MatcherComplete.

Lemma match_here_denotes (r : Re.regex) (s : str) (m : option str) :
  Re.match_here r s = Some m -> exists q s', s = q ++ s' /\ denotes r q.
Proof.
  unfold Re.match_here. intros H.
  apply run_denotes in H as (q & s' & g' & Hs & Hq & _). eauto.
Qed.

Lemma match_here_complete (r : Re.regex) (s : str) :
  Re.match_here r s = None -> forall q s', s = q ++ s' -> ~ denotes r q.
Proof.
  unfold Re.match_here. intros H q s' Hs Hq.
  destruct (run_complete r _ _ _ _ H q s' Hs Hq) as [g' Hg]. discriminate Hg.
Qed.

(** [search] finds a match exactly when some part of the text matches. *)
Lemma search_occurs (r : Re.regex) (s : str) :
  (exists m, Re.search r s = Some m) <-> occurs r s.
Proof.
  split.
  - intros [m H]. apply search_sound in H as (pre & s' & -> & H).
    apply match_here_denotes in H as (q & post & -> & Hq).
    exists pre, q, post. auto.
  - intros (pre & q & post & -> & Hq).
    induction pre as [|c pre IH]; simpl.
    + destruct (Re.match_here r (q ++ post)) as [m|] eqn:Hm.
      * exists m. apply search_here, Hm.
      * exfalso. apply (match_here_complete r _ Hm q post eq_refl Hq).
    + destruct (Re.match_here r (c :: pre ++ q ++ post)); eauto.
Qed.

Lemma lower_is_unit_letter (c ch : char) :
  In c [107; 103; 114] -> Re.lit_match c ch = true -> lower_simple ch = c.
Proof.
  intros Hc H. unfold Re.lit_match in H.
  destruct Hc as [<-|[<-|[<-|[]]]]; simpl in H; rewrite orb_false_r in H;
    apply N.eqb_eq in H; exact H.
Qed.

(** The texts of [(?:kg|g|gr)]: one of the three units, in any casing. *)
Lemma denotes_unit (q : str) :
  denotes unit_re q -> In (map lower_simple q) [u "kg"; u "g"; u "gr"].
Proof.
  intros H. vm_compute in H.
  destruct H as [H|[H|H]].
  - destruct H as (q1 & q2 & -> & (c1 & -> & H1) & (q3 & q4 & -> & (c2 & -> & H2) & ->)).
    left. simpl.
    rewrite (lower_is_unit_letter 107 c1), (lower_is_unit_letter 103 c2);
      simpl; auto.
  - destruct H as (q1 & q2 & -> & (c1 & -> & H1) & ->).
    right. left. simpl. rewrite (lower_is_unit_letter 103 c1); simpl; auto.
  - destruct H as (q1 & q2 & -> & (c1 & -> & H1) & (q3 & q4 & -> & (c2 & -> & H2) & ->)).
    right. right. left. simpl.
    rewrite (lower_is_unit_letter 103 c1), (lower_is_unit_letter 114 c2);
      simpl; auto.
Qed.

(** The texts of group 1: a number, at most one white space character, a
    unit. *)
Lemma denotes_amount (q : str) :
  denotes (Re.Cat (Re.Plus digit_class) (Re.Cat (Re.Opt (Re.Class isspace)) unit_re)) q ->
  exists num sp un,
    q = num ++ sp ++ un /\
    num <> [] /\ forallb digit_class num = true /\
    (sp = [] \/ exists c, sp = [c] /\ isspace c = true) /\
    In (map lower_simple un) [u "kg"; u "g"; u "gr"].
Proof.
  intros (num & rest & -> & [Hne Hnum] & (sp & un & -> & Hsp & Hun)).
  exists num, sp, un.
  split; [reflexivity|]. split; [exact Hne|]. split; [exact Hnum|].
  split; [|apply denotes_unit, Hun].
  destruct Hsp as [->|(c & -> & Hc)]; [left; reflexivity | right; exists c; auto].
Qed.

Lemma weight_re1_amount (s : str) (m : option str) :
  Re.match_here weight_re1 s = Some m ->
  exists q, m = Some q /\
            denotes (Re.Cat (Re.Plus digit_class)
                            (Re.Cat (Re.Opt (Re.Class isspace)) unit_re)) q.
Proof.
  unfold Re.match_here, weight_re1. intros H.
  apply run_cat in H as (q1 & s1 & g1 & -> & H & _).
  apply run_cat in H as (q2 & s2 & g2 & -> & H & _).
  unfold amount_re in H.
  apply run_group_denotes in H as (q & s3 & -> & Hq & H).
  injection H as <-. exists q. split; [|exact Hq].
  simpl option_map. f_equal.
  rewrite (app_assoc q1 q2), <- length_app.
  apply (slice_app (q1 ++ q2) q s3).
Qed.

Lemma weight_re2_amount (s : str) (m : option str) :
  Re.match_here weight_re2 s = Some m ->
  exists q, m = Some q /\
            denotes (Re.Cat (Re.Plus digit_class)
                            (Re.Cat (Re.Opt (Re.Class isspace)) unit_re)) q.
Proof.
  unfold Re.match_here, weight_re2. intros H.
  change (Re.run amount_re 0 s None
            (fun pos' s' g' =>
               Re.run (Re.Cat (Re.Plus isspace) (Re.word (u "ağırlık"))) pos' s' g'
                 (fun _ _ g => Some (option_map (Re.slice s) g))) = Some m) in H.
  unfold amount_re in H.
  apply run_group_denotes in H as (q & s1 & -> & Hq & H).
  apply run_sound in H as (q' & s2 & g2 & -> & H & Hg).
  rewrite (Hg eq_refl) in H.
  injection H as <-. exists q. split; [|exact Hq].
  simpl option_map. f_equal.
  apply (slice_app [] q (q' ++ s2)).
Qed.

(** X15. The fallback finds a weight in the text exactly when some part of
    the text matches one of the two patterns; what it finds is a string. *)
Theorem weight_found_iff (text : str) :
  (exists g, weight_in_text text = Some (PStr g)) <->
  occurs weight_re1 text \/ occurs weight_re2 text.
Proof.
  unfold weight_in_text. split.
  - intros [g H].
    destruct (Re.search weight_re1 text) as [m|] eqn:H1.
    + left. apply search_occurs. eauto.
    + destruct (Re.search weight_re2 text) as [m|] eqn:H2; [|discriminate].
      right. apply search_occurs. eauto.
  - intros H.
    destruct (Re.search weight_re1 text) as [m|] eqn:H1.
    + apply search_sound in H1 as (pre & s' & _ & H1).
      apply weight_re1_amount in H1 as (q & -> & _). eauto.
    + destruct H as [H|H].
      * apply search_occurs in H as [m H]. congruence.
      * apply search_occurs in H as [m H]. rewrite H.
        apply search_sound in H as (pre & s' & _ & H).
        apply weight_re2_amount in H as (q & -> & _). eauto.
Qed.

(** X16. The weight that the fallback finds in the text is a number (digits,
    dots and commas), then at most one white space character, then one of
    the units kg, g and gr in any casing. *)
Theorem weight_in_text_shape (text : str) (v : value) :
  weight_in_text text = Some v ->
  exists num sp un,
    v = PStr (num ++ sp ++ un) /\
    num <> [] /\ forallb digit_class num = true /\
    (sp = [] \/ exists c, sp = [c] /\ isspace c = true) /\
    In (map lower_simple un) [u "kg"; u "g"; u "gr"].
Proof.
  unfold weight_in_text. intros H.
  assert (Hq : exists q, v = PStr q /\
                         denotes (Re.Cat (Re.Plus digit_class)
                                         (Re.Cat (Re.Opt (Re.Class isspace)) unit_re)) q).
  { destruct (Re.search weight_re1 text) as [m|] eqn:H1.
    - apply search_sound in H1 as (pre & s' & _ & H1).
      apply weight_re1_amount in H1 as (q & -> & Hq).
      injection H as <-. eauto.
    - destruct (Re.search weight_re2 text) as [m|] eqn:H2; [|discriminate].
      apply search_sound in H2 as (pre & s' & _ & H2).
      apply weight_re2_amount in H2 as (q & -> & Hq).
      injection H as <-. eauto. }
  destruct Hq as (q & -> & Hq).
  destruct (denotes_amount q Hq) as (num & sp & un & -> & Hrest).
  exists num, sp, un. split; [reflexivity | exact Hrest].
Qed.

Lemma weight_in_text_shape_witness :
  exists num sp un,
    PStr (u "3,5 KG") = PStr (num ++ sp ++ un) /\
    num <> [] /\ forallb digit_class num = true /\
    (sp = [] \/ exists c, sp = [c] /\ isspace c = true) /\
    In (map lower_simple un) [u "kg"; u "g"; u "gr"].
Proof.
  apply (weight_in_text_shape (u "Paket AĞIRLIK : 3,5 KG")).
  vm_compute. reflexivity.
Defined.
